(** * AeroInsights: the flight delay and cancellation pipeline of [analysis.py]

    A shallow embedding of the batch pipeline: load two tables, derive the
    [route] column, aggregate by route, by airline and by wind group, render
    three bar charts and write a text report.

    Conventions of the embedding.
    - A [DataFrame] is a finite map from column names to columns; a column
      is a [float64] series ([FloatCol], numbers with NaN) or an [object]
      series of text ([ObjCol], strings with NaN).  This is what [read_csv]
      yields for the two data files: [origin], [dest] and [airline] are text,
      [dep_time], [dep_delay] and [wind_gust] are numeric.  A numeric column
      in a place where the code needs text (a grouping key) lies outside this
      schema and the model stops there with [TypeError]; so does a file
      without rows, whose columns [read_csv] types as [object].
    - [float64] values are idealised as exact rationals ([Qc]); NaN, the
      absent value, is [None].  A number printed with one decimal is the
      exact value rounded, which can differ in its last digit from the
      rounding of the binary value.
    - Exceptions are values of [exn]; a computation that raises returns
      [Raise e] together with the world as it was when the exception left.
    - Table objects live in a store addressed by references, so that a
      column assignment is seen through every reference to the table.
    - Standard output is the list of the writes made to it; a file holds
      the text last written to it.  Failures of the file system (a missing
      directory, an encoding error) are not modelled: a write succeeds.
    - The row order of [sort_values] and the rendering of a table by [print]
      belong to the installed library; the model takes them as parameters
      ([ArgSort], [Repr]).  The examples run a merge sort, or the library's
      generic quicksort under pandas' [nargsort]; on the sample tables the
      two give the same order.
    - [logger.info] lines go to the log stream and are not modelled, except
      that evaluating their arguments may raise. *)

From Stdlib Require Import ZArith QArith Qcanon String Ascii DecimalString.
From stdpp Require Import base gmap strings list sorting functions.

(** ** Exceptions *)

Inductive exn :=
| KeyError (k : string)
| IndexError
| TypeError
| FileNotFoundError (path : string).

(** [KeyError] and [IndexError] are the two subclasses of Python's
    [LookupError]. *)
Definition is_LookupError (e : exn) : bool :=
  match e with
  | KeyError _ | IndexError => true
  | TypeError | FileNotFoundError _ => false
  end.

Inductive result (A : Type) :=
| Ok (a : A)
| Raise (e : exn).
Arguments Ok {A} a.
Arguments Raise {A} e.

Definition rbind {A B} (r : result A) (k : A → result B) : result B :=
  match r with
  | Ok a => k a
  | Raise e => Raise e
  end.

Notation "'try!' x := r 'in' k" := (rbind r (λ x, k))
  (at level 10, x binder, r at level 100, k at level 200).

(** ** Tables *)

Abbreviation float := (option Qc).
Abbreviation text := (option string).

Inductive column :=
| FloatCol (xs : list float)
| ObjCol (xs : list text).

Abbreviation DataFrame := (gmap string column).

Definition col_length (c : column) : nat :=
  match c with
  | FloatCol xs => length xs
  | ObjCol xs => length xs
  end.

(** [df[c]] *)
Definition getitem (df : DataFrame) (c : string) : result column :=
  match df !! c with
  | Some col => Ok col
  | None => Raise (KeyError c)
  end.

(** The message of the [KeyError] that [agg] raises for the columns it is
    asked to aggregate and the table lacks; older versions of the library
    write [Column(s)] for [Label(s)]. *)
Definition do_not_exist (cols : list string) : string :=
  "Label(s) [" +:+ String.concat ", " ((λ c, "'" +:+ c +:+ "'") <$> cols)
    +:+ "] do not exist".

(** [agg] looks for the columns of its specification before it
    aggregates, and names all that are missing. *)
Definition agg_columns (df : DataFrame) (cols : list string) : result unit :=
  match filter (λ c, df !! c = None) cols with
  | [] => Ok ()
  | missing => Raise (KeyError (do_not_exist missing))
  end.

(** [df.groupby(by)[c]] *)
Definition groupby_getitem (df : DataFrame) (c : string) : result column :=
  match df !! c with
  | Some col => Ok col
  | None => Raise (KeyError ("Column not found: " +:+ c))
  end.

Definition as_text (c : column) : result (list text) :=
  match c with
  | ObjCol xs => Ok xs
  | FloatCol _ => Raise TypeError
  end.

Definition as_float (c : column) : result (list float) :=
  match c with
  | FloatCol xs => Ok xs
  | ObjCol _ => Raise TypeError
  end.

(** [series.isna()] *)
Definition isna {A} (x : option A) : bool :=
  match x with
  | None => true
  | Some _ => false
  end.

Definition col_isna (c : column) : list bool :=
  match c with
  | FloatCol xs => isna <$> xs
  | ObjCol xs => isna <$> xs
  end.

(** Elementwise text concatenation: a NaN on either side gives NaN. *)
Definition str_add (a b : text) : text :=
  match a, b with
  | Some x, Some y => Some (x +:+ y)
  | _, _ => None
  end.

(** [series + "-"] *)
Definition series_add_scalar (c : column) (s : string) : result column :=
  try! xs := as_text c in
  Ok (ObjCol ((λ x, str_add x (Some s)) <$> xs)).

(** [series + series], both of the same frame *)
Definition series_add (a b : column) : result column :=
  try! xs := as_text a in
  try! ys := as_text b in
  Ok (ObjCol (zip_with str_add xs ys)).

(** ** Preprocessor *)

(** The right-hand side of
    [flights_df["route"] = flights_df["origin"] + "-" + flights_df["dest"]]. *)
Definition route_column (df : DataFrame) : result column :=
  try! origin := getitem df "origin" in
  try! origin_sep := series_add_scalar origin "-" in
  try! dest := getitem df "dest" in
  series_add origin_sep dest.

(** ** Grouping

    [groupby] partitions row positions by the value of the key column.  Rows
    whose key is NaN belong to no group; the groups come out in ascending
    key order ([sort=True]) and every group lists its rows in table order. *)

Section groupby.
Context {K A : Type} `{EqDecision K} (ltb : K → K → bool).

Fixpoint group_append (k : K) (x : A) (gs : list (K * list A)) : list (K * list A) :=
  match gs with
  | [] => []
  | (k', xs) :: gs' =>
      if decide (k = k') then (k', xs ++ [x]) :: gs'
      else (k', xs) :: group_append k x gs'
  end.

Fixpoint group_new (k : K) (x : A) (gs : list (K * list A)) : list (K * list A) :=
  match gs with
  | [] => [(k, [x])]
  | (k', xs) :: gs' =>
      if ltb k k' then (k, [x]) :: (k', xs) :: gs'
      else (k', xs) :: group_new k x gs'
  end.

Definition group_insert (gs : list (K * list A)) (kx : option K * A) : list (K * list A) :=
  match kx.1 with
  | None => gs
  | Some k =>
      if decide (k ∈ gs.*1) then group_append k kx.2 gs
      else group_new k kx.2 gs
  end.

Definition groupby (keys : list (option K)) (rows : list A) : list (K * list A) :=
  foldl group_insert [] (zip keys rows).

(** The rows a group holds. *)
Fixpoint group_rows (k : K) (gs : list (K * list A)) : list A :=
  match gs with
  | [] => []
  | (k', xs) :: gs' => if decide (k = k') then xs else group_rows k gs'
  end.
End groupby.

(** Row positions of the groups of a key column. *)
Definition group_indices {K} `{EqDecision K} (ltb : K → K → bool)
    (keys : list (option K)) : list (K * list nat) :=
  groupby ltb keys (seq 0 (length keys)).

(** Positional selection, [series.take(idx)]. *)
Definition select {A} (xs : list A) (idx : list nat) : list A :=
  omap (λ i, xs !! i) idx.

Definition col_take (c : column) (idx : list nat) : column :=
  match c with
  | FloatCol xs => FloatCol (select xs idx)
  | ObjCol xs => ObjCol (select xs idx)
  end.

(** ** Aggregation functions *)

(** ["mean"]: one pass that adds up the present values and counts them;
    NaN when there is none. *)
Definition mean_step (acc : Qc * Z) (x : float) : Qc * Z :=
  match x with
  | Some v => ((acc.1 + v)%Qc, (acc.2 + 1)%Z)
  | None => acc
  end.

Definition mean (xs : list float) : float :=
  let acc := foldl mean_step (Q2Qc 0, 0%Z) xs in
  if decide (acc.2 = 0%Z) then None else Some (acc.1 / Qc_of_Z acc.2)%Qc.

(** ["count"]: the number of present values. *)
Definition count (xs : list float) : Z :=
  foldl (λ n x, if isna x then n else (n + 1)%Z) 0%Z xs.

(** [.sum()] of a boolean series. *)
Definition sum_bool (bs : list bool) : Z :=
  foldl (λ n (b : bool), if b then (n + 1)%Z else n) 0%Z bs.

(** [lambda x: x.isna().sum()] *)
Definition isna_sum (x : column) : Z := sum_bool (col_isna x).

(** ** Route and airline aggregators *)

Record AggRow := {
  key : string;
  mean_dep_delay : float;
  total_cancellations : Z
}.

Definition TOP_N : nat := 9.

(** [df.groupby(by).agg(mean_dep_delay=("dep_delay", "mean"),
      total_cancellations=("dep_time", lambda x: x.isna().sum())).reset_index()] *)
Definition agg_row (delays : list float) (dep_time : column)
    (g : string * list nat) : AggRow :=
  {| key := g.1;
     mean_dep_delay := mean (select delays g.2);
     total_cancellations := isna_sum (col_take dep_time g.2) |}.

Definition delays_cancels (df : DataFrame) (by_ : string) : result (list AggRow) :=
  try! key_col := getitem df by_ in
  try! keys := as_text key_col in
  try! _ := agg_columns df ["dep_delay"; "dep_time"] in
  try! delay_col := getitem df "dep_delay" in
  try! dep_time := getitem df "dep_time" in
  try! delays := as_float delay_col in
  Ok (agg_row delays dep_time <$> group_indices String.ltb keys).

(** ** Ranking

    [sort_values(by, ascending=False)] computes a row order with the
    library's argsort and takes the rows in that order.  The call sites pass
    no [kind], so the default ['quicksort'] applies, which the library
    documents as not stable: rows come out in descending key order with NaN
    keys last, and the order among equal keys is whatever the installed
    sort produces.  [ArgSort] is that contract; the pipeline is
    parameterised by an instance for each key type. *)

Definition delay_desc : relation float := λ a b,
  match a, b with
  | _, None => True
  | None, Some _ => False
  | Some x, Some y => (y ≤ x)%Qc
  end.

Definition cancel_desc : relation Z := λ a b, (b ≤ a)%Z.

Class ArgSort {K} (R : relation K) := {
  argsort : list K → list nat;
  argsort_perm ks : argsort ks ≡ₚ seq 0 (length ks);
  argsort_sorted ks : Sorted R (select ks (argsort ks))
}.
Arguments argsort {K} R {_} ks.

Definition sort_values {K} (R : relation K) `{!ArgSort R}
    (by_ : AggRow → K) (t : list AggRow) : list AggRow :=
  select t (argsort R (by_ <$> t)).

(** [t.head(n)] *)
Definition head (n : nat) (t : list AggRow) : list AggRow := take n t.

(** [t.iloc[0]] *)
Definition iloc0 (t : list AggRow) : result AggRow :=
  match t with
  | r :: _ => Ok r
  | [] => Raise IndexError
  end.

(** The two aggregators share one shape and differ in the grouping column. *)
Inductive aggregator := Routes | Airlines.

Definition group_column (a : aggregator) : string :=
  match a with
  | Routes => "route"
  | Airlines => "airline"
  end.

Section aggregators.
Context `{!ArgSort delay_desc, !ArgSort cancel_desc}.

Definition top_by_delay (t : list AggRow) : list AggRow :=
  head TOP_N (sort_values delay_desc mean_dep_delay t).

Definition top_by_cancellations (t : list AggRow) : list AggRow :=
  head TOP_N (sort_values cancel_desc total_cancellations t).

(** The three tables an aggregator returns: the aggregate and its two
    ranked views. *)
Definition Stats : Type := list AggRow * list AggRow * list AggRow.

Definition analyze_routes (flights_df : DataFrame) : result Stats :=
  try! routes_delays_cancels := delays_cancels flights_df "route" in
  let top_routes_by_delay := top_by_delay routes_delays_cancels in
  let top_routes_by_cancellations := top_by_cancellations routes_delays_cancels in
  (* the two log lines read the first row of each view *)
  try! _ := iloc0 top_routes_by_delay in
  try! _ := iloc0 top_routes_by_cancellations in
  Ok (routes_delays_cancels, top_routes_by_delay, top_routes_by_cancellations).

Definition analyze_airlines (flights_df : DataFrame) : result Stats :=
  try! airlines_delays_cancels := delays_cancels flights_df "airline" in
  let top_airlines_by_delay := top_by_delay airlines_delays_cancels in
  let top_airlines_by_cancellations := top_by_cancellations airlines_delays_cancels in
  (* the log line reads the first row of the delay view *)
  try! _ := iloc0 top_airlines_by_delay in
  Ok (airlines_delays_cancels, top_airlines_by_delay, top_airlines_by_cancellations).

Definition analyze (a : aggregator) : DataFrame → result Stats :=
  match a with
  | Routes => analyze_routes
  | Airlines => analyze_airlines
  end.
End aggregators.

(** ** Wind aggregator *)

(** [lambda x: ">= 10mph" if x >= 10 else "< 10mph"]; a comparison with NaN
    is false. *)
Definition ge10 (x : float) : bool :=
  match x with
  | Some v => bool_decide (Q2Qc 10 ≤ v)%Qc
  | None => false
  end.

Definition wind_group_of (x : float) : string :=
  if ge10 x then ">= 10mph" else "< 10mph".

(** [series.apply(lambda x: ...)]: on a text value the comparison with 10
    raises. *)
Definition apply_wind_group (c : column) : result column :=
  match c with
  | FloatCol xs => Ok (ObjCol ((λ x, Some (wind_group_of x)) <$> xs))
  | ObjCol xs =>
      if forallb isna xs
      then Ok (ObjCol ((λ _, Some (wind_group_of None)) <$> xs))
      else Raise TypeError
  end.

Definition pair_ltb (a b : string * string) : bool :=
  String.ltb a.1 b.1 || (String.eqb a.1 b.1 && String.ltb a.2 b.2).

Definition pair_key (a b : text) : option (string * string) :=
  match a, b with
  | Some x, Some y => Some (x, y)
  | _, _ => None
  end.

Record WindDetailRow := {
  wd_wind_group : string;
  wd_origin : string;
  wd_mean_dep_delay : float
}.

Record WindSummaryRow := {
  ws_wind_group : string;
  ws_mean : float;
  ws_count : Z
}.

(** [df.groupby(["wind_group", "origin"]).agg(mean_dep_delay=("dep_delay", "mean"))] *)
Definition wind_detail (df : DataFrame) : result (list WindDetailRow) :=
  try! group_col := getitem df "wind_group" in
  try! groups := as_text group_col in
  try! origin_col := getitem df "origin" in
  try! origins := as_text origin_col in
  try! _ := agg_columns df ["dep_delay"] in
  try! delay_col := getitem df "dep_delay" in
  try! delays := as_float delay_col in
  Ok ((λ g, {| wd_wind_group := g.1.1; wd_origin := g.1.2;
               wd_mean_dep_delay := mean (select delays g.2) |})
        <$> group_indices pair_ltb (zip_with pair_key groups origins)).

(** [df.groupby("wind_group")["dep_delay"].agg(['mean', 'count'])] *)
Definition wind_summary_of (df : DataFrame) : result (list WindSummaryRow) :=
  try! group_col := getitem df "wind_group" in
  try! groups := as_text group_col in
  try! delay_col := groupby_getitem df "dep_delay" in
  try! delays := as_float delay_col in
  Ok ((λ g, {| ws_wind_group := g.1;
               ws_mean := mean (select delays g.2);
               ws_count := count (select delays g.2) |})
        <$> group_indices String.ltb groups).

(** [wind_summary.loc[label, 'mean']] *)
Fixpoint loc_mean (label : string) (t : list WindSummaryRow) : result float :=
  match t with
  | [] => Raise (KeyError label)
  | r :: t' => if decide (ws_wind_group r = label) then Ok (ws_mean r) else loc_mean label t'
  end.

(** ** Text formatting *)

Definition NL : string := String "010"%char EmptyString.

(** [s * n] *)
Fixpoint str_mul (s : string) (n : nat) : string :=
  match n with
  | O => EmptyString
  | S n' => s +:+ str_mul s n'
  end.

(** [str(n)] for an integer *)
Definition str_int (n : Z) : string := NilZero.string_of_int (Z.to_int n).

(** The nearest integer to [n / d] for [0 ≤ n] and [0 < d], halves to even. *)
Definition round_half_even (n d : Z) : Z :=
  let q := (n / d)%Z in
  let r := (n mod d)%Z in
  match (2 * r ?= d)%Z with
  | Lt => q
  | Gt => (q + 1)%Z
  | Eq => if Z.even q then q else (q + 1)%Z
  end.

(** [f"{x:.1f}"] *)
Definition format_1f (x : float) : string :=
  match x with
  | None => "nan"
  | Some v =>
      let n := Qnum (this v) in
      let d := Z.pos (Qden (this v)) in
      let tenths := round_half_even (Z.abs n * 10) d in
      (if bool_decide (n < 0)%Z then "-" else EmptyString)
        +:+ str_int (tenths / 10) +:+ "." +:+ str_int (tenths mod 10)
  end.

(** ["\n".join(lines)] *)
Definition join_lines (lines : list string) : string := String.concat NL lines.

(** ** The world the pipeline runs in *)

(** What a saved chart shows: the tick labels and the text above the bars. *)
Record Figure := {
  xticklabels : list string;
  bar_texts : list string
}.

(** [__repr__] of the two wind tables, as [print] shows them. *)
Class Repr (A : Type) := repr : A → string.

Abbreviation loc := nat.

Record World := {
  csv_files : gmap string DataFrame;   (* what read_csv parses at each path *)
  heap : loc → DataFrame;              (* the DataFrame objects *)
  next_loc : loc;
  stdout : list string;                (* one entry per write, oldest first *)
  text_files : gmap string string;
  plot_files : gmap string Figure
}.

Definition set_heap (f : (loc → DataFrame) → (loc → DataFrame)) (w : World) : World :=
  {| csv_files := csv_files w; heap := f (heap w); next_loc := next_loc w;
     stdout := stdout w; text_files := text_files w; plot_files := plot_files w |}.

Definition set_next_loc (n : loc) (w : World) : World :=
  {| csv_files := csv_files w; heap := heap w; next_loc := n;
     stdout := stdout w; text_files := text_files w; plot_files := plot_files w |}.

Definition set_stdout (f : list string → list string) (w : World) : World :=
  {| csv_files := csv_files w; heap := heap w; next_loc := next_loc w;
     stdout := f (stdout w); text_files := text_files w; plot_files := plot_files w |}.

Definition set_text_files (f : gmap string string → gmap string string) (w : World) : World :=
  {| csv_files := csv_files w; heap := heap w; next_loc := next_loc w;
     stdout := stdout w; text_files := f (text_files w); plot_files := plot_files w |}.

Definition set_plot_files (f : gmap string Figure → gmap string Figure) (w : World) : World :=
  {| csv_files := csv_files w; heap := heap w; next_loc := next_loc w;
     stdout := stdout w; text_files := text_files w; plot_files := f (plot_files w) |}.

(** Computations that read and change the world and may raise. *)
Definition M (A : Type) : Type := World → result A * World.

Definition ret {A} (a : A) : M A := λ w, (Ok a, w).

Definition raise {A} (e : exn) : M A := λ w, (Raise e, w).

Definition bind {A B} (m : M A) (k : A → M B) : M B := λ w,
  match m w with
  | (Ok a, w') => k a w'
  | (Raise e, w') => (Raise e, w')
  end.

Definition lift {A} (r : result A) : M A := λ w, (r, w).

Notation "'let!' x := m 'in' k" := (bind m (λ x, k))
  (at level 10, x binder, m at level 100, k at level 200).
Notation "m ;; k" := (bind m (λ _, k))
  (at level 100, k at level 200, right associativity).

(** [print(s)] writes [s] and a newline. *)
Definition print (s : string) : M unit := λ w,
  (Ok (), set_stdout (λ out, out ++ [s +:+ NL]) w).

(** [with open(path, 'w') as f: f.write(s)] *)
Definition write_text (path s : string) : M unit := λ w,
  (Ok (), set_text_files (insert path s) w).

(** [plt.savefig(path)] *)
Definition savefig (path : string) (fig : Figure) : M unit := λ w,
  (Ok (), set_plot_files (insert path fig) w).

(** [pd.read_csv(path)] makes a new table object. *)
Definition read_csv (path : string) : M loc := λ w,
  match csv_files w !! path with
  | Some df =>
      (Ok (next_loc w),
       set_next_loc (S (next_loc w)) (set_heap (<[next_loc w := df]>) w))
  | None => raise (FileNotFoundError path) w
  end.

(** Reading the table behind a reference. *)
Definition deref (l : loc) : M DataFrame := λ w, (Ok (heap w l), w).

(** [df[c] = col] on the object behind a reference. *)
Definition setitem (l : loc) (c : string) (col : column) : M unit := λ w,
  (Ok (), set_heap (λ h, <[l := <[c := col]> (h l)]> h) w).

Definition RESULTS_DIR : string := "results".
Definition PLOT_DIR : string := RESULTS_DIR +:+ "/plots".

(** ** The pipeline stages *)

Definition load_data : M (loc * loc) :=
  let! flights2022 := read_csv "flights2022.csv" in
  let! flights_weather2022 := read_csv "flights_weather2022.csv" in
  ret (flights2022, flights_weather2022).

(** The column assignment changes the object the caller passed; the same
    reference is returned. *)
Definition preprocess_data (flights_df : loc) : M loc :=
  let! df := deref flights_df in
  let! route := lift (route_column df) in
  setitem flights_df "route" route ;;
  ret flights_df.

(** The three charts: one bar per row, the tick labels and the text
    written above each bar. *)
Definition route_cancellations_figure (top_routes_by_cancellations : list AggRow) : Figure :=
  {| xticklabels := key <$> top_routes_by_cancellations;
     bar_texts := (λ r, str_int (total_cancellations r)) <$> top_routes_by_cancellations |}.

Definition airline_delays_figure (top_airlines_by_delay : list AggRow) : Figure :=
  {| xticklabels := key <$> top_airlines_by_delay;
     bar_texts := (λ r, format_1f (mean_dep_delay r)) <$> top_airlines_by_delay |}.

Definition wind_impact_figure (wind_summary : list WindSummaryRow) : Figure :=
  {| xticklabels := ws_wind_group <$> wind_summary;
     bar_texts := (λ r, format_1f (ws_mean r) +:+ " min" +:+ NL
                          +:+ "(n=" +:+ str_int (ws_count r) +:+ ")") <$> wind_summary |}.

Definition create_route_cancellations_plot (top_routes_by_cancellations : list AggRow) : M unit :=
  savefig (PLOT_DIR +:+ "/route_cancellations.png")
    (route_cancellations_figure top_routes_by_cancellations).

Definition create_airline_delays_plot (top_airlines_by_delay : list AggRow) : M unit :=
  savefig (PLOT_DIR +:+ "/airline_delays.png")
    (airline_delays_figure top_airlines_by_delay).

Definition create_wind_impact_plot (wind_summary : list WindSummaryRow) : M unit :=
  savefig (PLOT_DIR +:+ "/wind_impact.png") (wind_impact_figure wind_summary).

(** The text of the report, or the exception one of its lookups raises. *)
Definition report_text (routes_stats airlines_stats : Stats)
    (wind_summary : list WindSummaryRow) : result string :=
  try! worst_route := iloc0 routes_stats.1.2 in
  try! worst_cancel_route := iloc0 routes_stats.2 in
  try! worst_airline := iloc0 airlines_stats.1.2 in
  try! high := loc_mean ">= 10mph" wind_summary in
  try! low := loc_mean "< 10mph" wind_summary in
  Ok (join_lines [
    str_mul "=" 60;
    "FLIGHT DELAY AND CANCELLATION ANALYSIS REPORT";
    str_mul "=" 60;
    EmptyString;
    "TOP FINDINGS:";
    str_mul "-" 20;
    "• Worst route for delays: " +:+ key worst_route
      +:+ " (" +:+ format_1f (mean_dep_delay worst_route) +:+ " min)";
    "• Route with most cancellations: " +:+ key worst_cancel_route
      +:+ " (" +:+ str_int (total_cancellations worst_cancel_route) +:+ " flights)";
    "• Airline with highest delays: " +:+ key worst_airline
      +:+ " (" +:+ format_1f (mean_dep_delay worst_airline) +:+ " min)";
    "• Wind impact: High winds (≥10mph) cause " +:+ format_1f high +:+ " min delays";
    "                Low winds (<10mph) cause " +:+ format_1f low +:+ " min delays"
  ]).

Definition report_path : string := RESULTS_DIR +:+ "/analysis_summary.txt".

Definition generate_summary_report (routes_stats airlines_stats : Stats)
    (wind_summary : list WindSummaryRow) : M unit :=
  let! text := lift (report_text routes_stats airlines_stats wind_summary) in
  print (NL +:+ text) ;;
  write_text report_path text.

Section pipeline.
Context `{!ArgSort delay_desc, !ArgSort cancel_desc}.
Context `{!Repr (list WindSummaryRow), !Repr (list WindDetailRow)}.

(** The [wind_group] column is assigned on the caller's object before the
    two aggregations run. *)
Definition analyze_wind_impact (flights_weather_df : loc)
    : M (list WindDetailRow * list WindSummaryRow) :=
  let! df := deref flights_weather_df in
  let! gust := lift (getitem df "wind_gust") in
  let! wind_group := lift (apply_wind_group gust) in
  setitem flights_weather_df "wind_group" wind_group ;;
  let! df := deref flights_weather_df in
  let! wind_grouped_data := lift (wind_detail df) in
  let! wind_summary := lift (wind_summary_of df) in
  print (NL +:+ str_mul "=" 50) ;;
  print "WIND IMPACT ANALYSIS" ;;
  print (str_mul "=" 50) ;;
  print (NL +:+ "Summary by Wind Conditions:") ;;
  print (repr wind_summary) ;;
  print (NL +:+ "Detailed by Origin Airport:") ;;
  print (repr wind_grouped_data) ;;
  ret (wind_grouped_data, wind_summary).

(** [main] returns nothing; the model hands back the three aggregator
    outputs of the run so that statements can speak about them. *)
Definition Outputs : Type :=
  Stats * Stats * (list WindDetailRow * list WindSummaryRow).

Definition main : M Outputs :=
  let! dfs := load_data in
  let! flights_df := preprocess_data dfs.1 in
  let! df := deref flights_df in
  let! routes_stats := lift (analyze_routes df) in
  let! airlines_stats := lift (analyze_airlines df) in
  let! wind := analyze_wind_impact dfs.2 in
  create_route_cancellations_plot routes_stats.2 ;;
  create_airline_delays_plot airlines_stats.1.2 ;;
  create_wind_impact_plot wind.2 ;;
  generate_summary_report routes_stats airlines_stats wind.2 ;;
  ret (routes_stats, airlines_stats, wind).
End pipeline.

(** ** The sorts of the examples

    A merge sort of the rows paired with their positions, which leaves rows
    with equal keys in table order, and the sort the library runs for
    [kind='quicksort']. *)

Definition by_key {K} (R : relation K) : relation (K * nat) := λ a b, R a.1 b.1.

Global Instance by_key_dec {K} (R : relation K) `{!RelDecision R} : RelDecision (by_key R) :=
  λ a b, decide_rel R a.1 b.1.

Definition keyed {K} (ks : list K) : list (K * nat) := zip ks (seq 0 (length ks)).

Definition merge_argsort {K} (R : relation K) `{!RelDecision R} (ks : list K) : list nat :=
  (merge_sort (by_key R) (keyed ks)).*2.

(** *** The library's quicksort

    numpy's [argsort(kind='quicksort')] in its generic form ([aquicksort]
    of [npysort/quicksort.cpp]): an introsort over the index array
    [tosort], with the median of three as pivot, insertion sort for ranges
    of at most 17 entries, and heapsort once the depth budget is used up.
    Positions into [tosort] stand for the pointers [pl], [pr], [pi], [pj];
    the loops run on fuel that their bounds never exhaust.  Builds of the
    library that sort with vector instructions order equal keys in other
    ways. *)

Section npysort.
Context {V : Type} `{!Inhabited V} (less : V → V → bool) (v : list V).
Implicit Types (tosort : list nat) (pl pr pi pj : nat).

Definition SMALL_QUICKSORT : nat := 16.

(** [v[*p]] *)
Definition key_at tosort (p : nat) : V := v !!! (tosort !!! p).

(** [INTP_SWAP] of the entries at two positions *)
Definition intp_swap tosort (p q : nat) : list nat :=
  <[q := tosort !!! p]> (<[p := tosort !!! q]> tosort).

(** [while (pj > pl && less(vp, v[*pk])) *pj-- = *pk--;  *pj = vi;] *)
Fixpoint insert_shift (fuel : nat) (vp : V) (vi pl : nat) tosort pj : list nat :=
  match fuel with
  | S fuel' =>
      if bool_decide (pl < pj) && less vp (key_at tosort (pj - 1))
      then insert_shift fuel' vp vi pl (<[pj := tosort !!! (pj - 1)]> tosort) (pj - 1)
      else <[pj := vi]> tosort
  | O => <[pj := vi]> tosort
  end.

(** [for (pi = pl + 1; pi <= pr; ++pi)] *)
Definition insertion_sort tosort pl pr : list nat :=
  foldl (λ a pi, let vi := a !!! pi in insert_shift (S pi) (v !!! vi) vi pl a pi)
        tosort (seq (S pl) (pr - pl)).

(** [do ++pi; while (less(v[*pi], vp));] from an incremented [pi] *)
Fixpoint scan_up (fuel : nat) tosort (vp : V) pi : nat :=
  match fuel with
  | S fuel' => if less (key_at tosort pi) vp then scan_up fuel' tosort vp (S pi) else pi
  | O => pi
  end.

(** [do --pj; while (less(vp, v[*pj]));] from a decremented [pj] *)
Fixpoint scan_down (fuel : nat) tosort (vp : V) pj : nat :=
  match fuel with
  | S fuel' => if less vp (key_at tosort pj) then scan_down fuel' tosort vp (pj - 1) else pj
  | O => pj
  end.

Fixpoint partition_loop (fuel : nat) (vp : V) tosort pi pj : list nat * nat :=
  match fuel with
  | S fuel' =>
      let pi := scan_up (length tosort) tosort vp (S pi) in
      let pj := scan_down (length tosort) tosort vp (pj - 1) in
      if bool_decide (pj ≤ pi) then (tosort, pi)
      else partition_loop fuel' vp (intp_swap tosort pi pj) pi pj
  | O => (tosort, pi)
  end.

(** One partition of the range from [pl] to [pr]: the index array after
    it and the place of the pivot. *)
Definition partition tosort pl pr : list nat * nat :=
  let pm := pl + (pr - pl) / 2 in
  let a := if less (key_at tosort pm) (key_at tosort pl)
           then intp_swap tosort pm pl else tosort in
  let a := if less (key_at a pr) (key_at a pm) then intp_swap a pr pm else a in
  let a := if less (key_at a pm) (key_at a pl) then intp_swap a pm pl else a in
  let vp := key_at a pm in
  let a := intp_swap a pm (pr - 1) in
  let '(a, pi) := partition_loop (length a) vp a pl (pr - 1) in
  (intp_swap a pi (pr - 1), pi).

(** A range kept for later, with the depth budget it was pushed with. *)
Definition Frame : Type := nat * nat * Z.

(** [while ((pr - pl) > SMALL_QUICKSORT)]: partition, push the larger
    part, go on with the smaller. *)
Fixpoint partitions (fuel : nat) tosort pl pr (stack : list Frame) (cdepth : Z)
    : list nat * nat * nat * list Frame :=
  match fuel with
  | S fuel' =>
      if bool_decide (SMALL_QUICKSORT < pr - pl) then
        let '(a, pi) := partition tosort pl pr in
        if bool_decide (pi - pl < pr - pi)
        then partitions fuel' a pl (pi - 1)
               ((pi + 1, pr, (cdepth - 1)%Z) :: stack) (cdepth - 1)
        else partitions fuel' a (pi + 1) pr
               ((pl, pi - 1, (cdepth - 1)%Z) :: stack) (cdepth - 1)
      else (tosort, pl, pr, stack)
  | O => (tosort, pl, pr, stack)
  end.

(** The sift loop of [aheapsort] on the [n] entries from [pl], which it
    counts from 1. *)
Fixpoint sift (fuel : nat) tosort (pl tmp n i j : nat) : list nat :=
  match fuel with
  | S fuel' =>
      if bool_decide (j ≤ n) then
        let j := if bool_decide (j < n)
                    && less (key_at tosort (pl + j - 1)) (key_at tosort (pl + j))
                 then S j else j in
        if less (v !!! tmp) (key_at tosort (pl + j - 1))
        then sift fuel' (<[pl + i - 1 := tosort !!! (pl + j - 1)]> tosort)
               pl tmp n j (j + j)
        else <[pl + i - 1 := tmp]> tosort
      else <[pl + i - 1 := tmp]> tosort
  | O => <[pl + i - 1 := tmp]> tosort
  end.

Definition aheapsort tosort pl (n : nat) : list nat :=
  let a := foldl (λ a l, sift (S n) a pl (a !!! (pl + l - 1)) n l (l + l))
                 tosort (reverse (seq 1 (n / 2))) in
  foldl (λ a m, let tmp := a !!! (pl + m - 1) in
                sift (S n) (<[pl + m - 1 := a !!! pl]> a) pl tmp (m - 1) 1 2)
        a (reverse (seq 2 (n - 1))).

Fixpoint aquicksort_loop (fuel : nat) tosort pl pr (stack : list Frame) (cdepth : Z)
    : list nat :=
  match fuel with
  | S fuel' =>
      let '(a, stack) :=
        if bool_decide (cdepth < 0)%Z
        then (aheapsort tosort pl (pr - pl + 1), stack)
        else let '(a, pl, pr, stack) :=
               partitions (length tosort) tosort pl pr stack cdepth in
             (insertion_sort a pl pr, stack) in
      match stack with
      | [] => a
      | (pl, pr, cdepth) :: stack => aquicksort_loop fuel' a pl pr stack cdepth
      end
  | O => tosort
  end.

Definition aquicksort : list nat :=
  let num := length v in
  aquicksort_loop (S num) (seq 0 num) 0 (num - 1) [] (2 * Z.log2 (Z.of_nat num)).
End npysort.

(** pandas' [nargsort(items, kind, ascending=False, na_position='last')],
    which [sort_values] calls for a single sort column: the present keys are
    reversed, sorted in ascending order and reversed again, and the rows with
    a NaN key follow in table order. *)
Definition nargsort {V} `{!Inhabited V} (less : V → V → bool)
    (items : list (option V)) : list nat :=
  let idx := seq 0 (length items) in
  let non_nans := reverse (omap id items) in
  let non_nan_idx := reverse (filter (λ i, is_Some (mjoin (items !! i))) idx) in
  let nan_idx := filter (λ i, ¬ is_Some (mjoin (items !! i))) idx in
  let indexer := (λ p, non_nan_idx !!! p) <$> aquicksort less non_nans in
  reverse indexer ++ nan_idx.

Global Instance Qc_inhabited : Inhabited Qc := populate (Q2Qc 0).

Definition Qc_ltb (x y : Qc) : bool := bool_decide (x < y)%Qc.

(** The row order by [mean_dep_delay], a [float64] column, and by
    [total_cancellations], an [int64] column without NaN. *)
Definition delay_nargsort (ks : list float) : list nat := nargsort Qc_ltb ks.

Definition cancel_nargsort (ks : list Z) : list nat := nargsort Z.ltb (Some <$> ks).

(** [sort ks] when it orders the rows as the contract asks, the merge sort
    otherwise.  Checking each run spares the development a correctness
    proof of the introsort; on the tables below the check passes and the
    order is the one [sort] gives. *)
Definition checked_argsort {K} (R : relation K) `{!RelDecision R}
    (sort : list K → list nat) (ks : list K) : list nat :=
  let idx := sort ks in
  if bool_decide (merge_sort (≤) idx = seq 0 (length ks) ∧ Sorted R (select ks idx))
  then idx else merge_argsort R ks.

Global Instance delay_desc_dec : RelDecision delay_desc.
Proof. intros [x|] [y|]; simpl; apply _. Defined.

Global Instance cancel_desc_dec : RelDecision cancel_desc.
Proof. intros x y; unfold cancel_desc; apply _. Defined.

(** ** Decidable equality of the data, for computing with examples *)

Global Instance exn_eq_dec : EqDecision exn.
Proof. solve_decision. Defined.

Global Instance result_eq_dec {A} `{EqDecision A} : EqDecision (result A).
Proof. solve_decision. Defined.

Global Instance column_eq_dec : EqDecision column.
Proof. solve_decision. Defined.

Global Instance AggRow_eq_dec : EqDecision AggRow.
Proof. solve_decision. Defined.

Global Instance WindDetailRow_eq_dec : EqDecision WindDetailRow.
Proof. solve_decision. Defined.

Global Instance WindSummaryRow_eq_dec : EqDecision WindSummaryRow.
Proof. solve_decision. Defined.

Global Instance Figure_eq_dec : EqDecision Figure.
Proof. solve_decision. Defined.

(** ** Sample tables

    The flight rows of the worked example, with a third flight on a second
    route whose delay and departure time are both absent, and the three wind
    rows of the worked example. *)

Definition num (n : Z) : float := Some (Qc_of_Z n).

Definition sample_flights : DataFrame :=
  <["origin" := ObjCol [Some "JFK"; Some "JFK"; Some "LGA"] ]>
  (<["dest" := ObjCol [Some "LAX"; Some "LAX"; Some "ORD"] ]>
  (<["airline" := ObjCol [Some "AA"; Some "DL"; Some "AA"] ]>
  (<["dep_time" := FloatCol [num 1200; None; None] ]>
  (<["dep_delay" := FloatCol [num 10; num 30; None] ]> ∅)))).

Definition sample_routes : column :=
  ObjCol [Some "JFK-LAX"; Some "JFK-LAX"; Some "LGA-ORD"].

Definition sample_flights_routed : DataFrame :=
  <["route" := sample_routes]> sample_flights.

Definition JFK_LAX : AggRow :=
  {| key := "JFK-LAX"; mean_dep_delay := num 20; total_cancellations := 1 |}.

Definition LGA_ORD : AggRow :=
  {| key := "LGA-ORD"; mean_dep_delay := None; total_cancellations := 1 |}.

Definition sample_route_stats : Stats :=
  ([JFK_LAX; LGA_ORD], [JFK_LAX; LGA_ORD], [JFK_LAX; LGA_ORD]).



Definition sample_weather : DataFrame :=
  <["origin" := ObjCol [Some "JFK"; Some "JFK"; Some "LGA"] ]>
  (<["wind_gust" := FloatCol [num 9; num 10; num 20] ]>
  (<["dep_delay" := FloatCol [num 5; num 15; num 25] ]> ∅)).

Definition sample_wind_detail : list WindDetailRow :=
  [ {| wd_wind_group := "< 10mph"; wd_origin := "JFK"; wd_mean_dep_delay := num 5 |};
    {| wd_wind_group := ">= 10mph"; wd_origin := "JFK"; wd_mean_dep_delay := num 15 |};
    {| wd_wind_group := ">= 10mph"; wd_origin := "LGA"; wd_mean_dep_delay := num 25 |} ].

Definition sample_wind_summary : list WindSummaryRow :=
  [ {| ws_wind_group := "< 10mph"; ws_mean := num 5; ws_count := 1 |};
    {| ws_wind_group := ">= 10mph"; ws_mean := num 20; ws_count := 2 |} ].

Definition AA : AggRow :=
  {| key := "AA"; mean_dep_delay := num 10; total_cancellations := 1 |}.

Definition DL : AggRow :=
  {| key := "DL"; mean_dep_delay := num 30; total_cancellations := 1 |}.

Definition sample_airline_stats : Stats :=
  ([AA; DL], [DL; AA], [AA; DL]).

(** A world in which every reference holds the table [df], with nothing
    printed and no file written. *)
Definition world_holding (df : DataFrame) : World :=
  {| csv_files := ∅; heap := λ _, df; next_loc := 1;
     stdout := []; text_files := ∅; plot_files := ∅ |}.

(** A world with the two sample data files and nothing else. *)
Definition sample_world : World :=
  {| csv_files := <["flights2022.csv" := sample_flights]>
                  (<["flights_weather2022.csv" := sample_weather]> ∅);
     heap := λ _, ∅; next_loc := 0;
     stdout := []; text_files := ∅; plot_files := ∅ |}.

(** A plain rendering of the two wind tables, one row per line, to run the
    model on examples; the statements hold for every rendering. *)
Definition plain_summary_repr : Repr (list WindSummaryRow) := λ t,
  join_lines ((λ r, ws_wind_group r +:+ " " +:+ format_1f (ws_mean r)
                      +:+ " " +:+ str_int (ws_count r)) <$> t).

Definition plain_detail_repr : Repr (list WindDetailRow) := λ t,
  join_lines ((λ r, wd_wind_group r +:+ " " +:+ wd_origin r
                      +:+ " " +:+ format_1f (wd_mean_dep_delay r)) <$> t).

(** The report of the worked example. *)
Definition sample_report : string :=
  join_lines [
    "============================================================";
    "FLIGHT DELAY AND CANCELLATION ANALYSIS REPORT";
    "============================================================";
    EmptyString;
    "TOP FINDINGS:";
    "--------------------";
    "• Worst route for delays: JFK-LAX (20.0 min)";
    "• Route with most cancellations: JFK-LAX (1 flights)";
    "• Airline with highest delays: DL (30.0 min)";
    "• Wind impact: High winds (≥10mph) cause 20.0 min delays";
    "                Low winds (<10mph) cause 5.0 min delays"
  ].

(** A wind summary without a row for [">= 10mph"]. *)
Definition calm_wind_summary : list WindSummaryRow :=
  [ {| ws_wind_group := "< 10mph"; ws_mean := num 5; ws_count := 3 |} ].

(** * Vocabulary of the statements *)

(** The entries of [rows] that stand beside the key [k] in [keys]. *)
Definition rows_with_key {K A} `{EqDecision K}
    (k : K) (keys : list (option K)) (rows : list A) : list A :=
  (filter (λ kx, kx.1 = Some k) (zip keys rows)).*2.

(** The group of [k]: the row positions of the table whose key is [k], in
    table order. *)
Definition rows_of_group {K} `{EqDecision K} (keys : list (option K)) (k : K) : list nat :=
  filter (λ i, keys !! i = Some (Some k)) (seq 0 (length keys)).

(** The values of a series that are present. *)
Definition present (xs : list float) : list Qc := omap id xs.

Definition Qc_sum (vs : list Qc) : Qc := foldr Qcplus (Q2Qc 0) vs.

(** The arithmetic mean of the values; undefined (NaN) when there is none. *)
Definition arithmetic_mean (vs : list Qc) : float :=
  match vs with
  | [] => None
  | _ :: _ => Some (Qc_sum vs / Qc_of_Z (Z.of_nat (length vs)))%Qc
  end.

(** What a ranked view of the aggregate [t] by the metric [by_] is: at most
    [TOP_N] rows (all of them when [t] has fewer), in descending order of
    the metric, taken from [t] without repetition, and no row left out ranks
    above a row kept. *)
Definition ranked_view {K} (R : relation K) (by_ : AggRow → K)
    (t view : list AggRow) : Prop :=
  length view ≤ TOP_N ∧
  length view = min TOP_N (length t) ∧
  StronglySorted R (by_ <$> view) ∧
  ∃ rest, view ++ rest ≡ₚ t ∧
          ∀ r r', r ∈ view → r' ∈ rest → R (by_ r) (by_ r').

(** Ties broken by the order of the aggregate table: two rows of the view
    with the same metric stand in the view as they stand in [t]. *)
Definition ties_in_table_order {K} (by_ : AggRow → K)
    (t view : list AggRow) : Prop :=
  ∀ i j r r', i < j → view !! i = Some r → view !! j = Some r' →
    by_ r = by_ r' →
    ∃ i' j', i' < j' ∧ t !! i' = Some r ∧ t !! j' = Some r'.

(** A row order that is stable: positions with equal keys come in
    ascending order, as the sort kinds ['stable'] and ['mergesort'] leave
    them. *)
Definition stable_order {K} (ks : list K) (idx : list nat) : Prop :=
  ∀ a b i j, a < b → idx !! a = Some i → idx !! b = Some j →
    ks !! i = ks !! j → i < j.

(** The wind summary has a row for the group [g]. *)
Definition has_group (g : string) (wind_summary : list WindSummaryRow) : Prop :=
  g ∈ ws_wind_group <$> wind_summary.

(** The wind summary lacks one of the two groups the report reads. *)
Definition lacks_wind_group (wind_summary : list WindSummaryRow) : Prop :=
  ¬ has_group ">= 10mph" wind_summary ∨ ¬ has_group "< 10mph" wind_summary.

(** The three first rows the report reads are there. *)
Definition top1_rows_exist (routes_stats airlines_stats : Stats) : Prop :=
  routes_stats.1.2 ≠ [] ∧ routes_stats.2 ≠ [] ∧ airlines_stats.1.2 ≠ [].

(** What a run emits: the writes to standard output in order, the text
    files and the charts it saved. *)
Record Emitted := {
  printed : list string;
  written : gmap string string;
  charts : gmap string Figure
}.

Definition nothing : Emitted :=
  {| printed := []; written := ∅; charts := ∅ |}.

(** [w'] is [w] after the emissions [e]: the output is appended, the files
    written replace what was at their paths, every other file and the data
    files are as in [w]. *)
Definition emits (w w' : World) (e : Emitted) : Prop :=
  stdout w' = stdout w ++ printed e ∧
  text_files w' = written e ∪ text_files w ∧
  plot_files w' = charts e ∪ plot_files w ∧
  csv_files w' = csv_files w.

Section pipeline_function.
Context `{!ArgSort delay_desc, !ArgSort cancel_desc}.
Context `{!Repr (list WindSummaryRow), !Repr (list WindDetailRow)}.

(** The seven writes of the wind aggregator. *)
Definition wind_banner (wind_grouped_data : list WindDetailRow)
    (wind_summary : list WindSummaryRow) : list string :=
  [ (NL +:+ str_mul "=" 50) +:+ NL;
    "WIND IMPACT ANALYSIS" +:+ NL;
    str_mul "=" 50 +:+ NL;
    (NL +:+ "Summary by Wind Conditions:") +:+ NL;
    repr wind_summary +:+ NL;
    (NL +:+ "Detailed by Origin Airport:") +:+ NL;
    repr wind_grouped_data +:+ NL ].

(** The three charts of a run, by path. *)
Definition saved_charts (routes_stats airlines_stats : Stats)
    (wind_summary : list WindSummaryRow) : gmap string Figure :=
  <[PLOT_DIR +:+ "/wind_impact.png" := wind_impact_figure wind_summary]>
  (<[PLOT_DIR +:+ "/airline_delays.png" := airline_delays_figure airlines_stats.1.2]>
  (<[PLOT_DIR +:+ "/route_cancellations.png" := route_cancellations_figure routes_stats.2]> ∅)).

(** The pipeline as a function of what the two data files hold: the
    aggregator outputs or the exception of the run, and what the run has
    emitted by then. *)
Definition pipeline (flights2022 flights_weather2022 : option DataFrame)
    : result Outputs * Emitted :=
  match flights2022, flights_weather2022 with
  | None, _ => (Raise (FileNotFoundError "flights2022.csv"), nothing)
  | Some _, None => (Raise (FileNotFoundError "flights_weather2022.csv"), nothing)
  | Some flights, Some weather =>
  match route_column flights with
  | Raise e => (Raise e, nothing)
  | Ok route =>
  match analyze_routes (<["route" := route]> flights) with
  | Raise e => (Raise e, nothing)
  | Ok routes_stats =>
  match analyze_airlines (<["route" := route]> flights) with
  | Raise e => (Raise e, nothing)
  | Ok airlines_stats =>
  match getitem weather "wind_gust" with
  | Raise e => (Raise e, nothing)
  | Ok gust =>
  match apply_wind_group gust with
  | Raise e => (Raise e, nothing)
  | Ok wind_group =>
  match wind_detail (<["wind_group" := wind_group]> weather) with
  | Raise e => (Raise e, nothing)
  | Ok wind_grouped_data =>
  match wind_summary_of (<["wind_group" := wind_group]> weather) with
  | Raise e => (Raise e, nothing)
  | Ok wind_summary =>
  match report_text routes_stats airlines_stats wind_summary with
  | Raise e =>
      (Raise e,
       {| printed := wind_banner wind_grouped_data wind_summary;
          written := ∅;
          charts := saved_charts routes_stats airlines_stats wind_summary |})
  | Ok text =>
      (Ok (routes_stats, airlines_stats, (wind_grouped_data, wind_summary)),
       {| printed := wind_banner wind_grouped_data wind_summary
                       ++ [(NL +:+ text) +:+ NL];
          written := {[ report_path := text ]};
          charts := saved_charts routes_stats airlines_stats wind_summary |})
  end end end end end end end end
  end.
End pipeline_function.

(** * Properties *)

(** ** Grouping *)

Section groupby_facts.
Context {K A : Type} `{EqDecision K} (ltb : K → K → bool).
Implicit Types (gs : list (K * list A)) (k : K) (x : A).
Implicit Types (keys : list (option K)) (rows xs : list A).

Lemma group_append_keys k x gs : (group_append k x gs).*1 = gs.*1.
Proof.
  induction gs as [|[k' xs] gs IH]; csimpl; [done|].
  case_decide; csimpl; by rewrite ?IH.
Qed.

Lemma group_new_keys k x gs : (group_new ltb k x gs).*1 ≡ₚ k :: gs.*1.
Proof.
  induction gs as [|[k' xs] gs IH]; csimpl; [done|].
  destruct (ltb k k'); csimpl; [done|].
  rewrite IH. apply Permutation_swap.
Qed.

Lemma group_rows_absent k gs : k ∉ gs.*1 → group_rows k gs = [].
Proof.
  induction gs as [|[k' xs] gs IH]; csimpl; [done|].
  rewrite not_elem_of_cons. intros [? ?]. case_decide; [done|]. by apply IH.
Qed.

Lemma group_rows_append k k' x gs :
  k' ∈ gs.*1 →
  group_rows k (group_append k' x gs) =
    if decide (k = k') then group_rows k gs ++ [x] else group_rows k gs.
Proof.
  induction gs as [|[k0 xs] gs IH]; csimpl; [by rewrite elem_of_nil|].
  rewrite elem_of_cons. intros Hin.
  destruct (decide (k' = k0)) as [->|Hne]; simpl.
  - repeat case_decide; congruence.
  - destruct Hin as [?|Hin]; [done|].
    rewrite (IH Hin). repeat case_decide; congruence.
Qed.

Lemma group_rows_new k k' x gs :
  k' ∉ gs.*1 →
  group_rows k (group_new ltb k' x gs) =
    if decide (k = k') then [x] else group_rows k gs.
Proof.
  induction gs as [|[k0 xs] gs IH]; csimpl.
  - intros _. by repeat case_decide.
  - rewrite not_elem_of_cons. intros [Hne Hnin].
    destruct (ltb k' k0); simpl.
    + repeat case_decide; congruence.
    + rewrite (IH Hnin). repeat case_decide; congruence.
Qed.

Lemma group_rows_elem k xs gs :
  NoDup gs.*1 → (k, xs) ∈ gs → group_rows k gs = xs.
Proof.
  induction gs as [|[k0 ys] gs IH]; csimpl; [by rewrite elem_of_nil|].
  rewrite list.NoDup_cons, elem_of_cons. intros [Hnin Hnd] [Heq|Hin].
  - simplify_eq. by case_decide.
  - case_decide as Hk; [|by apply IH]. subst k0.
    destruct Hnin. apply list_elem_of_fmap. by exists (k, xs).
Qed.

Lemma group_insert_spec gs kx :
  NoDup gs.*1 →
  NoDup (group_insert ltb gs kx).*1 ∧
  ∀ k, group_rows k (group_insert ltb gs kx) =
         group_rows k gs ++ (if decide (kx.1 = Some k) then [kx.2] else []).
Proof.
  intros Hnd. destruct kx as [[k'|] x]; unfold group_insert; simpl.
  - case_decide as Hin.
    + rewrite group_append_keys. split; [done|]. intros k.
      rewrite group_rows_append by done.
      repeat case_decide; simplify_eq; by rewrite ?app_nil_r.
    + split.
      * rewrite group_new_keys. by apply list.NoDup_cons.
      * intros k. rewrite group_rows_new by done.
        repeat case_decide; simplify_eq; rewrite ?app_nil_r; try done.
        by rewrite group_rows_absent.
  - split; [done|]. intros k. by rewrite app_nil_r.
Qed.

Lemma foldl_group_insert_spec gs kxs :
  NoDup gs.*1 →
  NoDup (foldl (group_insert ltb) gs kxs).*1 ∧
  ∀ k, group_rows k (foldl (group_insert ltb) gs kxs) =
         group_rows k gs ++ (filter (λ kx, kx.1 = Some k) kxs).*2.
Proof.
  revert gs. induction kxs as [|kx kxs IH]; intros gs Hnd; simpl.
  - split; [done|]. intros k. by rewrite app_nil_r.
  - destruct (group_insert_spec gs kx Hnd) as [Hnd' Hrows].
    destruct (IH _ Hnd') as [Hnd'' Hrows'']. split; [done|]. intros k.
    rewrite Hrows'', Hrows, <-app_assoc. f_equal.
    rewrite filter_cons. by case_decide.
Qed.

Lemma groupby_NoDup keys rows : NoDup (groupby ltb keys rows).*1.
Proof. apply foldl_group_insert_spec. constructor. Qed.

Lemma groupby_group_rows keys rows k :
  group_rows k (groupby ltb keys rows) = rows_with_key k keys rows.
Proof.
  unfold groupby.
  by destruct (foldl_group_insert_spec [] (zip keys rows)) as [_ ->]; [constructor|].
Qed.

Lemma groupby_rows keys rows k xs :
  (k, xs) ∈ groupby ltb keys rows → xs = rows_with_key k keys rows.
Proof.
  intros Hin. rewrite <-groupby_group_rows.
  symmetry. by apply group_rows_elem; [apply groupby_NoDup|].
Qed.

(** A key with a row has a group. *)
Lemma groupby_complete keys rows k :
  rows_with_key k keys rows ≠ [] → ∃ xs, (k, xs) ∈ groupby ltb keys rows.
Proof.
  intros Hne. destruct (decide (k ∈ (groupby ltb keys rows).*1)) as [Hin|Hnin].
  - apply list_elem_of_fmap in Hin as ([k' xs] & -> & Hin). by exists xs.
  - apply group_rows_absent in Hnin. by rewrite groupby_group_rows in Hnin.
Qed.
End groupby_facts.

Lemma rows_with_key_seq {K} `{EqDecision K} (k : K) (pre keys : list (option K)) :
  rows_with_key k keys (seq (length pre) (length keys)) =
    filter (λ i, (pre ++ keys) !! i = Some (Some k)) (seq (length pre) (length keys)).
Proof.
  unfold rows_with_key. revert pre.
  induction keys as [|a keys IH]; intros pre; csimpl; [done|].
  specialize (IH (pre ++ [a])).
  rewrite length_app, Nat.add_1_r, <-app_assoc in IH; simpl in IH.
  rewrite !filter_cons; simpl.
  rewrite list_lookup_middle by done.
  destruct (decide (a = Some k)) as [->|Hne].
  - rewrite decide_True by done. csimpl. by rewrite IH.
  - rewrite decide_False by congruence. done.
Qed.

(** A group of [group_indices] holds exactly the row positions that carry its
    key, in table order. *)
Lemma group_indices_rows {K} `{EqDecision K} (ltb : K → K → bool)
    (keys : list (option K)) (k : K) (idx : list nat) :
  (k, idx) ∈ group_indices ltb keys → idx = rows_of_group keys k.
Proof.
  intros Hin. apply groupby_rows in Hin. rewrite Hin.
  apply (rows_with_key_seq k [] keys).
Qed.

(** ** Aggregation functions *)

Lemma foldl_mean_step (xs : list float) (s : Qc) (n : Z) :
  foldl mean_step (s, n) xs =
    ((s + Qc_sum (present xs))%Qc, (n + Z.of_nat (length (present xs)))%Z).
Proof.
  revert s n. induction xs as [|[v|] xs IH]; intros s n; simpl.
  - by rewrite Qcplus_0_r, Z.add_0_r.
  - rewrite IH. unfold present; simpl. f_equal; [by rewrite Qcplus_assoc | lia].
  - by rewrite IH.
Qed.

(** [mean] is the arithmetic mean of the present values. *)
Lemma mean_arithmetic (xs : list float) : mean xs = arithmetic_mean (present xs).
Proof.
  unfold mean. rewrite foldl_mean_step; simpl.
  rewrite Qcplus_0_l, Z.add_0_l.
  destruct (present xs) as [|v vs]; simpl; [done|].
  repeat case_decide; first [done | lia].
Qed.

Lemma foldl_sum_bool (bs : list bool) (n : Z) :
  foldl (λ n (b : bool), if b then (n + 1)%Z else n) n bs =
    (n + Z.of_nat (length (filter (λ b, b = true) bs)))%Z.
Proof.
  revert n. induction bs as [|b bs IH]; intros n; [simpl; lia|].
  rewrite filter_cons. cbn [foldl]. rewrite IH.
  destruct b; [rewrite decide_True by done | rewrite decide_False by done];
    cbn [length]; lia.
Qed.

Lemma select_fmap {A B} (f : A → B) (xs : list A) (idx : list nat) :
  f <$> select xs idx = select (f <$> xs) idx.
Proof.
  unfold select. induction idx as [|i idx IH]; csimpl; [done|].
  rewrite list_lookup_fmap. destruct (xs !! i); csimpl; by rewrite ?IH.
Qed.

Lemma col_isna_take (c : column) (idx : list nat) :
  col_isna (col_take c idx) = select (col_isna c) idx.
Proof. destruct c; simpl; apply select_fmap. Qed.

Lemma filter_select_length {A} `{EqDecision A} (v : A) (xs : list A) (idx : list nat) :
  length (filter (λ x, x = v) (select xs idx)) =
    length (filter (λ i, xs !! i = Some v) idx).
Proof.
  unfold select. induction idx as [|i idx IH]; csimpl; [done|].
  rewrite (filter_cons _ i). destruct (xs !! i) as [x|] eqn:Hx; csimpl.
  - rewrite filter_cons. destruct (decide (x = v)) as [->|Hne].
    + rewrite decide_True by done. simpl. by rewrite IH.
    + rewrite decide_False by congruence. done.
  - apply IH.
Qed.

(** [lambda x: x.isna().sum()] on the sub-series at [idx] counts the rows of
    [idx] whose value is absent. *)
Lemma isna_sum_take (c : column) (idx : list nat) :
  isna_sum (col_take c idx) =
    Z.of_nat (length (filter (λ i, col_isna c !! i = Some true) idx)).
Proof.
  unfold isna_sum, sum_bool. rewrite foldl_sum_bool, col_isna_take, Z.add_0_l.
  by rewrite filter_select_length.
Qed.

(** ** Ranking *)

Global Instance delay_desc_trans : Transitive delay_desc.
Proof.
  intros [x|] [y|] [z|]; simpl; try done.
  intros ? ?. by apply Qcle_trans with y.
Qed.

Global Instance delay_desc_total : Total delay_desc.
Proof.
  intros [x|] [y|]; simpl; auto.
  destruct (Qc_le_total x y); auto.
Qed.

Global Instance cancel_desc_trans : Transitive cancel_desc.
Proof. unfold cancel_desc. intros x y z. lia. Qed.

Global Instance cancel_desc_total : Total cancel_desc.
Proof. unfold cancel_desc. intros x y. lia. Qed.

Lemma select_seq {A} (pre t : list A) :
  select (pre ++ t) (seq (length pre) (length t)) = t.
Proof.
  unfold select. revert pre. induction t as [|x t IH]; intros pre; csimpl; [done|].
  rewrite list_lookup_middle by done. csimpl. f_equal.
  specialize (IH (pre ++ [x])).
  by rewrite length_app, Nat.add_1_r, <-app_assoc in IH.
Qed.

Lemma select_perm {A} (t : list A) (idx : list nat) :
  idx ≡ₚ seq 0 (length t) → select t idx ≡ₚ t.
Proof.
  intros Hp. rewrite <-(select_seq [] t) at 2. unfold select. by rewrite Hp.
Qed.

Section sort_values_facts.
Context {K} (R : relation K) `{!ArgSort R} (by_ : AggRow → K).

Lemma sort_values_perm (t : list AggRow) : sort_values R by_ t ≡ₚ t.
Proof.
  apply select_perm. rewrite argsort_perm. by rewrite length_fmap.
Qed.

Lemma sort_values_sorted `{!Transitive R} (t : list AggRow) :
  StronglySorted R (by_ <$> sort_values R by_ t).
Proof.
  apply Sorted_StronglySorted; [done|].
  unfold sort_values. rewrite select_fmap. apply argsort_sorted.
Qed.

Lemma head_sort_values_ranked `{!Transitive R} (t : list AggRow) :
  ranked_view R by_ t (head TOP_N (sort_values R by_ t)).
Proof.
  pose proof (sort_values_perm t) as Hp.
  pose proof (sort_values_sorted t) as Hs.
  set (sorted := sort_values R by_ t) in *.
  unfold ranked_view, head. rewrite length_take, (Permutation_length Hp).
  split; [lia|]. split; [lia|].
  rewrite <-(take_drop TOP_N sorted), fmap_app in Hs.
  split; [by apply StronglySorted_app_1_l in Hs|].
  exists (drop TOP_N sorted). split; [by rewrite take_drop|].
  intros r r' Hr Hr'.
  apply (StronglySorted_app_1_elem_of _ _ _ _ _ Hs);
    apply list_elem_of_fmap; eauto.
Qed.
Lemma select_lookup {A} (t : list A) (idx : list nat) (a : nat) :
  Forall (λ i, i < length t) idx →
  select t idx !! a = idx !! a ≫= (t !!.).
Proof.
  unfold select. intros Hall. revert a.
  induction Hall as [|i idx Hi _ IH]; intros a; csimpl; [done|].
  destruct (lookup_lt_is_Some_2 t i Hi) as [x Hx]. rewrite Hx.
  destruct a as [|a]; simpl; [by rewrite Hx | apply IH].
Qed.

(** Had the sort been stable, ties would follow the order of the aggregate
    table. *)
Lemma stable_order_ties_in_table_order (t : list AggRow) :
  stable_order (by_ <$> t) (argsort R (by_ <$> t)) →
  ties_in_table_order by_ t (head TOP_N (sort_values R by_ t)).
Proof.
  intros Hstable a b r r' Hab Ha Hb Heq.
  unfold head, sort_values in Ha, Hb.
  apply lookup_take_Some in Ha as [Ha _]. apply lookup_take_Some in Hb as [Hb _].
  assert (Forall (λ i, i < length t) (argsort R (by_ <$> t))) as Hall.
  { apply list.Forall_forall. intros i Hi.
    rewrite argsort_perm, length_fmap in Hi. apply elem_of_seq in Hi. lia. }
  rewrite select_lookup in Ha, Hb by done.
  destruct (argsort R (by_ <$> t) !! a) as [i|] eqn:Hi; [|done].
  destruct (argsort R (by_ <$> t) !! b) as [j|] eqn:Hj; [|done].
  simpl in Ha, Hb. exists i, j. split; [|done].
  apply (Hstable a b i j Hab Hi Hj).
  rewrite !list_lookup_fmap, Ha, Hb. simpl. by rewrite Heq.
Qed.
End sort_values_facts.

(** ** The sorts of the examples meet the contract *)

Section merge_argsort_facts.
Context {K} (R : relation K) `{!RelDecision R, !Total R}.

Global Instance by_key_total : Total (by_key R).
Proof. intros a b. apply (total R). Qed.

Lemma keyed_snd (ks : list K) : (keyed ks).*2 = seq 0 (length ks).
Proof. unfold keyed. apply snd_zip. by rewrite length_seq. Qed.

Lemma keyed_lookup (ks : list K) (k : K) (i : nat) :
  (k, i) ∈ keyed ks → ks !! i = Some k.
Proof.
  unfold keyed. intros (j & Hj)%list_elem_of_lookup.
  apply lookup_zip_with_Some in Hj as (k' & i' & Heq & Hk & Hi).
  simplify_eq. apply lookup_seq in Hi as [-> _]. done.
Qed.

Lemma select_keyed (ks : list K) (l : list (K * nat)) :
  l ≡ₚ keyed ks → select ks l.*2 = l.*1.
Proof.
  intros Hp. assert (Forall (λ ki, ks !! ki.2 = Some ki.1) l) as Hall.
  { apply list.Forall_forall. intros [k i] Hin. rewrite Hp in Hin. by apply keyed_lookup. }
  clear Hp. unfold select. induction Hall as [|[k i] l Hki _ IH]; csimpl; [done|].
  simpl in Hki. rewrite Hki. by rewrite IH.
Qed.

Lemma sorted_keyed_argsort (l : list (K * nat)) (ks : list K) :
  l ≡ₚ keyed ks → Sorted (by_key R) l →
  l.*2 ≡ₚ seq 0 (length ks) ∧ Sorted R (select ks l.*2).
Proof.
  intros Hp Hs. split.
  - by rewrite Hp, keyed_snd.
  - rewrite (select_keyed ks l Hp).
    eapply Sorted_fmap; [|exact Hs]. by intros ? ?.
Qed.

Lemma merge_argsort_ok (ks : list K) :
  merge_argsort R ks ≡ₚ seq 0 (length ks) ∧
  Sorted R (select ks (merge_argsort R ks)).
Proof.
  apply sorted_keyed_argsort.
  - apply merge_sort_Permutation.
  - apply Sorted_merge_sort, _.
Qed.

(** The merge sort of the table in its own order. *)
Definition merge_ArgSort : ArgSort R :=
  {| argsort := merge_argsort R;
     argsort_perm ks := proj1 (merge_argsort_ok ks);
     argsort_sorted ks := proj2 (merge_argsort_ok ks) |}.

Lemma checked_argsort_ok (sort : list K → list nat) (ks : list K) :
  checked_argsort R sort ks ≡ₚ seq 0 (length ks) ∧
  Sorted R (select ks (checked_argsort R sort ks)).
Proof.
  unfold checked_argsort. case_bool_decide as Hc; [|apply merge_argsort_ok].
  destruct Hc as [Hp Hs]. split; [|done].
  rewrite <-Hp. symmetry. apply merge_sort_Permutation.
Qed.

Definition checked_ArgSort (sort : list K → list nat) : ArgSort R :=
  {| argsort := checked_argsort R sort;
     argsort_perm ks := proj1 (checked_argsort_ok sort ks);
     argsort_sorted ks := proj2 (checked_argsort_ok sort ks) |}.
End merge_argsort_facts.

(** The library's sort for the two ranking columns. *)
Definition delay_ArgSort : ArgSort delay_desc :=
  checked_ArgSort delay_desc delay_nargsort.

Definition cancel_ArgSort : ArgSort cancel_desc :=
  checked_ArgSort cancel_desc cancel_nargsort.

(** ** Route and airline aggregators *)

Lemma rbind_Ok {A B} (r : result A) (k : A → result B) (b : B) :
  rbind r k = Ok b → ∃ a, r = Ok a ∧ k a = Ok b.
Proof. destruct r as [a|e]; simpl; [eauto | done]. Qed.

Lemma getitem_Ok (df : DataFrame) (c : string) (col : column) :
  getitem df c = Ok col → df !! c = Some col.
Proof. unfold getitem. destruct (df !! c); naive_solver. Qed.

Lemma groupby_getitem_Ok (df : DataFrame) (c : string) (col : column) :
  groupby_getitem df c = Ok col → df !! c = Some col.
Proof. unfold groupby_getitem. destruct (df !! c); naive_solver. Qed.

Lemma agg_columns_present (df : DataFrame) (cols : list string) :
  Forall (λ c, is_Some (df !! c)) cols → agg_columns df cols = Ok ().
Proof.
  intros Hall. unfold agg_columns.
  assert (filter (λ c, df !! c = None) cols = []) as ->; [|done].
  induction Hall as [|c cols [col Hc] _ IH]; [done|].
  rewrite filter_cons_False; [done|]. by rewrite Hc.
Qed.

Lemma agg_columns_missing (df : DataFrame) (cols : list string) (c : string) :
  c ∈ cols → df !! c = None → ∃ k, agg_columns df cols = Raise (KeyError k).
Proof.
  intros Hin Hc. unfold agg_columns.
  destruct (filter (λ c, df !! c = None) cols) as [|c' missing] eqn:Hf; [|eauto].
  assert (c ∈ filter (λ c, df !! c = None) cols) as Hbad
    by (by apply list_elem_of_filter).
  rewrite Hf in Hbad. by apply elem_of_nil in Hbad.
Qed.

Lemma as_text_Ok (c : column) (xs : list text) : as_text c = Ok xs → c = ObjCol xs.
Proof. destruct c; naive_solver. Qed.

Lemma as_float_Ok (c : column) (xs : list float) : as_float c = Ok xs → c = FloatCol xs.
Proof. destruct c; naive_solver. Qed.

Ltac invert_Ok :=
  repeat match goal with
  | H : rbind _ _ = Ok _ |- _ => apply rbind_Ok in H as (? & ? & H)
  | H : getitem _ _ = Ok _ |- _ => apply getitem_Ok in H
  | H : groupby_getitem _ _ = Ok _ |- _ => apply groupby_getitem_Ok in H
  | H : as_text _ = Ok _ |- _ => apply as_text_Ok in H; subst
  | H : as_float _ = Ok _ |- _ => apply as_float_Ok in H; subst
  | H : Ok _ = Ok _ |- _ => injection H as H; subst
  end.

Lemma delays_cancels_Ok (df : DataFrame) (by_ : string) (agg : list AggRow) :
  delays_cancels df by_ = Ok agg →
  ∃ keys delays dep_time,
    df !! by_ = Some (ObjCol keys) ∧
    df !! "dep_delay" = Some (FloatCol delays) ∧
    df !! "dep_time" = Some dep_time ∧
    agg = agg_row delays dep_time <$> group_indices String.ltb keys.
Proof. unfold delays_cancels. intros H. invert_Ok. eauto 10. Qed.

Section aggregator_facts.
Context `{!ArgSort delay_desc, !ArgSort cancel_desc}.

Lemma analyze_Ok (a : aggregator) (df : DataFrame) (s : Stats) :
  analyze a df = Ok s →
  delays_cancels df (group_column a) = Ok s.1.1 ∧
  s.1.2 = top_by_delay s.1.1 ∧
  s.2 = top_by_cancellations s.1.1.
Proof.
  destruct a; simpl; unfold analyze_routes, analyze_airlines;
    intros H; invert_Ok; simpl; auto.
Qed.

(** C2.  In the aggregate of either aggregator, [mean_dep_delay] of a group is
    the arithmetic mean of [dep_delay] over the rows of the group where it is
    present: absent values enter neither the sum nor the count.  A group
    with no present value keeps its row, and its mean is NaN ([None]), not
    a number.  Every key of the grouping column has its group. *)
Theorem mean_dep_delay_is_group_mean (a : aggregator) (df : DataFrame) (s : Stats) :
  analyze a df = Ok s →
  ∃ keys delays,
    df !! group_column a = Some (ObjCol keys) ∧
    df !! "dep_delay" = Some (FloatCol delays) ∧
    (∀ i k, keys !! i = Some (Some k) → ∃ r, r ∈ s.1.1 ∧ key r = k) ∧
    ∀ r, r ∈ s.1.1 →
      mean_dep_delay r =
        arithmetic_mean (present (select delays (rows_of_group keys (key r)))) ∧
      (present (select delays (rows_of_group keys (key r))) = [] →
       mean_dep_delay r = None).
Proof.
  intros (Hagg & _ & _)%analyze_Ok.
  apply delays_cancels_Ok in Hagg as (keys & delays & dep_time & Hk & Hd & _ & ->).
  exists keys, delays. split_and!; [done..| |].
  - intros i k Hi.
    destruct (groupby_complete String.ltb keys (seq 0 (length keys)) k) as [idx Hin].
    { rewrite (rows_with_key_seq k [] keys). simpl.
      intros Hnil. assert (i ∈ @nil nat) as Hbad; [|by apply elem_of_nil in Hbad].
      rewrite <-Hnil. apply list_elem_of_filter. split; [done|].
      apply elem_of_seq. apply lookup_lt_Some in Hi. lia. }
    exists (agg_row delays dep_time (k, idx)). split; [|done].
    apply list_elem_of_fmap. by exists (k, idx).
  - intros r ([k idx] & -> & Hin)%list_elem_of_fmap.
    apply group_indices_rows in Hin as ->. simpl.
    rewrite mean_arithmetic. split; [done|]. by intros ->.
Qed.

(** C5.  In the aggregate of either aggregator, [total_cancellations] of a
    group is the number of rows of the group whose [dep_time] is absent; it
    is a non-negative integer. *)
Theorem total_cancellations_counts_absent_dep_time
    (a : aggregator) (df : DataFrame) (s : Stats) :
  analyze a df = Ok s →
  ∃ keys dep_time,
    df !! group_column a = Some (ObjCol keys) ∧
    df !! "dep_time" = Some dep_time ∧
    ∀ r, r ∈ s.1.1 →
      total_cancellations r =
        Z.of_nat (length (filter (λ i, col_isna dep_time !! i = Some true)
                                 (rows_of_group keys (key r)))) ∧
      (0 ≤ total_cancellations r)%Z.
Proof.
  intros (Hagg & _ & _)%analyze_Ok.
  apply delays_cancels_Ok in Hagg as (keys & delays & dep_time & Hk & _ & Ht & ->).
  exists keys, dep_time. split_and!; [done..|].
  intros r ([k idx] & -> & Hin)%list_elem_of_fmap.
  apply group_indices_rows in Hin as ->. simpl.
  rewrite isna_sum_take. split; [done | lia].
Qed.

End aggregator_facts.

(** The aggregators run on the sample flights, under the merge sort. *)
Lemma analyze_routes_sample :
  @analyze (merge_ArgSort delay_desc) (merge_ArgSort cancel_desc)
    Routes sample_flights_routed = Ok sample_route_stats.
Proof. compute_done. Qed.

Lemma mean_dep_delay_is_group_mean_witness :
  ∃ keys delays,
    sample_flights_routed !! "route" = Some (ObjCol keys) ∧
    sample_flights_routed !! "dep_delay" = Some (FloatCol delays) ∧
    (∀ i k, keys !! i = Some (Some k) → ∃ r, r ∈ sample_route_stats.1.1 ∧ key r = k) ∧
    ∀ r, r ∈ sample_route_stats.1.1 →
      mean_dep_delay r =
        arithmetic_mean (present (select delays (rows_of_group keys (key r)))) ∧
      (present (select delays (rows_of_group keys (key r))) = [] →
       mean_dep_delay r = None).
Proof.
  exact (@mean_dep_delay_is_group_mean
           (merge_ArgSort delay_desc) (merge_ArgSort cancel_desc)
           Routes sample_flights_routed sample_route_stats analyze_routes_sample).
Defined.

Lemma total_cancellations_counts_absent_dep_time_witness :
  ∃ keys dep_time,
    sample_flights_routed !! "route" = Some (ObjCol keys) ∧
    sample_flights_routed !! "dep_time" = Some dep_time ∧
    ∀ r, r ∈ sample_route_stats.1.1 →
      total_cancellations r =
        Z.of_nat (length (filter (λ i, col_isna dep_time !! i = Some true)
                                 (rows_of_group keys (key r)))) ∧
      (0 ≤ total_cancellations r)%Z.
Proof.
  exact (@total_cancellations_counts_absent_dep_time
           (merge_ArgSort delay_desc) (merge_ArgSort cancel_desc)
           Routes sample_flights_routed sample_route_stats analyze_routes_sample).
Defined.


(** On the sample flights the library's sort gives the views the merge sort
    gives: the two routes, which have one cancellation each, stay in table
    order. *)
Example analyze_sample_library :
  @analyze delay_ArgSort cancel_ArgSort Routes sample_flights_routed
    = Ok sample_route_stats ∧
  @analyze delay_ArgSort cancel_ArgSort Airlines sample_flights_routed
    = Ok sample_airline_stats.
Proof. split; compute_done. Qed.

(** On the eighteen routes the order is the one the library's sort
    computes. *)
Example tied_flights_sorted_by_library :
  @argsort _ cancel_desc cancel_ArgSort (replicate 9 0%Z ++ replicate 9 1%Z)
    = cancel_nargsort (replicate 9 0%Z ++ replicate 9 1%Z) ∧
  @argsort _ delay_desc delay_ArgSort (replicate 9 (num 5) ++ replicate 9 None)
    = delay_nargsort (replicate 9 (num 5) ++ replicate 9 None).
Proof. split; compute_done. Qed.


(** ** Wind classifier *)

Lemma ge10_spec (v : Qc) : ge10 (Some v) = true ↔ (Q2Qc 10 ≤ v)%Qc.
Proof. unfold ge10. apply bool_decide_eq_true. Qed.

Lemma wind_group_of_present (v : Qc) :
  (wind_group_of (Some v) = ">= 10mph" ∧ (Q2Qc 10 ≤ v)%Qc) ∨
  (wind_group_of (Some v) = "< 10mph" ∧ (v < Q2Qc 10)%Qc).
Proof.
  unfold wind_group_of. destruct (ge10 (Some v)) eqn:Hge.
  - left. split; [done|]. by apply ge10_spec.
  - right. split; [done|]. apply Qclt_nge. intros Hle.
    apply ge10_spec in Hle. congruence.
Qed.

(** C3.  On a numeric gust column the classifier gives every row one label.
    A row whose gust is present gets [">= 10mph"] when the gust is at least
    10 and ["< 10mph"] when it is below 10, never both: the two labels are
    different strings.  A gust of exactly 10 gets [">= 10mph"]. *)
Theorem wind_group_total_partition (gusts : list float) :
  ∃ groups,
    apply_wind_group (FloatCol gusts) = Ok (ObjCol groups) ∧
    length groups = length gusts ∧
    (∀ i v, gusts !! i = Some (Some v) →
       (groups !! i = Some (Some ">= 10mph") ∧ (Q2Qc 10 ≤ v)%Qc) ∨
       (groups !! i = Some (Some "< 10mph") ∧ (v < Q2Qc 10)%Qc)) ∧
    ">= 10mph" ≠ "< 10mph" ∧
    wind_group_of (Some (Q2Qc 10)) = ">= 10mph".
Proof.
  eexists. split; [done|]. split; [by rewrite length_fmap|].
  split; [|done].
  intros i v Hi. rewrite list_lookup_fmap, Hi. simpl.
  destruct (wind_group_of_present v) as [[-> ?]|[-> ?]]; auto.
Qed.

(** C9.  A row whose gust is absent gets ["< 10mph"], because the comparison
    of NaN with 10 is false; so every row of the table, with or without a
    gust value, gets one of the two labels. *)
Theorem wind_group_absent_is_low (c : column) (groups : list text) :
  apply_wind_group c = Ok (ObjCol groups) →
  ge10 None = false ∧
  (∀ i, col_isna c !! i = Some true → groups !! i = Some (Some "< 10mph")) ∧
  (∀ i, i < col_length c →
     groups !! i = Some (Some ">= 10mph") ∨ groups !! i = Some (Some "< 10mph")).
Proof.
  intros Happly. split; [done|].
  destruct c as [xs|xs]; cbn [apply_wind_group col_isna col_length] in *.
  - injection Happly as <-. split.
    + intros i Hi. rewrite list_lookup_fmap in Hi. rewrite list_lookup_fmap.
      destruct (xs !! i) as [[v|]|]; simplify_eq/=; done.
    + intros i Hi. rewrite list_lookup_fmap.
      destruct (lookup_lt_is_Some_2 xs i Hi) as [x ->]. simpl.
      unfold wind_group_of. destruct (ge10 x); auto.
  - destruct (forallb isna xs); [|done]. injection Happly as <-. split.
    + intros i Hi. rewrite list_lookup_fmap in Hi. rewrite list_lookup_fmap.
      destruct (xs !! i); simplify_eq/=; done.
    + intros i Hi. rewrite list_lookup_fmap.
      destruct (lookup_lt_is_Some_2 xs i Hi) as [x ->]. simpl. auto.
Qed.

Lemma wind_group_absent_is_low_witness :
  ge10 None = false ∧
  (∀ i, col_isna (FloatCol [num 9; None; num 20]) !! i = Some true →
     [Some "< 10mph"; Some "< 10mph"; Some ">= 10mph"] !! i = Some (Some "< 10mph")) ∧
  (∀ i, i < col_length (FloatCol [num 9; None; num 20]) →
     [Some "< 10mph"; Some "< 10mph"; Some ">= 10mph"] !! i = Some (Some ">= 10mph") ∨
     [Some "< 10mph"; Some "< 10mph"; Some ">= 10mph"] !! i = Some (Some "< 10mph")).
Proof.
  apply (wind_group_absent_is_low (FloatCol [num 9; None; num 20])).
  vm_compute. reflexivity.
Defined.

(** ** Preprocessor *)

Lemma preprocess_data_run (flights_df : loc) (w : World) :
  preprocess_data flights_df w =
    match route_column (heap w flights_df) with
    | Ok route =>
        (Ok flights_df,
         set_heap (λ h, <[flights_df := <["route" := route]> (h flights_df)]> h) w)
    | Raise e => (Raise e, w)
    end.
Proof.
  unfold preprocess_data, bind, deref, lift, setitem, ret.
  by destruct (route_column (heap w flights_df)).
Qed.

Lemma route_column_present (df : DataFrame) (origins dests : list string) :
  df !! "origin" = Some (ObjCol (Some <$> origins)) →
  df !! "dest" = Some (ObjCol (Some <$> dests)) →
  route_column df =
    Ok (ObjCol (zip_with (λ o d, Some ((o +:+ "-") +:+ d)) origins dests)).
Proof.
  intros Ho Hd. unfold route_column, getitem. rewrite Ho, Hd.
  unfold series_add_scalar, series_add. simpl. do 2 f_equal.
  clear. revert dests. induction origins as [|o origins IH]; intros [|d dests]; csimpl;
    by rewrite ?IH.
Qed.

(** C6.  On a table whose [origin] and [dest] are present on every row the
    preprocessor succeeds, the [route] column it assigns holds one value per
    row, the text [origin + "-" + dest] of that row, and every other column
    of the table is as before. *)
Theorem preprocess_data_route (w : World) (flights_df : loc)
    (origins dests : list string) :
  heap w flights_df !! "origin" = Some (ObjCol (Some <$> origins)) →
  heap w flights_df !! "dest" = Some (ObjCol (Some <$> dests)) →
  length origins = length dests →
  ∃ routes w',
    preprocess_data flights_df w = (Ok flights_df, w') ∧
    heap w' flights_df !! "route" = Some (ObjCol routes) ∧
    length routes = length origins ∧
    (∀ i o d, origins !! i = Some o → dests !! i = Some d →
       routes !! i = Some (Some ((o +:+ "-") +:+ d))) ∧
    (∀ c, c ≠ "route" → heap w' flights_df !! c = heap w flights_df !! c).
Proof.
  intros Ho Hd Hlen. rewrite preprocess_data_run.
  rewrite (route_column_present _ origins dests Ho Hd).
  eexists _, _. split; [done|]. simpl. rewrite fn_lookup_insert.
  split; [by rewrite lookup_insert_eq|].
  split; [rewrite length_zip_with; lia|].
  split.
  - intros i o d Hio Hid. rewrite lookup_zip_with, Hio, Hid. done.
  - intros c Hc. by rewrite lookup_insert_ne.
Qed.

Lemma preprocess_data_route_witness :
  ∃ routes w',
    preprocess_data 0 (world_holding sample_flights) = (Ok 0, w') ∧
    heap w' 0 !! "route" = Some (ObjCol routes) ∧
    length routes = length ["JFK"; "JFK"; "LGA"] ∧
    (∀ i o d, ["JFK"; "JFK"; "LGA"] !! i = Some o →
              ["LAX"; "LAX"; "ORD"] !! i = Some d →
       routes !! i = Some (Some ((o +:+ "-") +:+ d))) ∧
    (∀ c, c ≠ "route" →
       heap w' 0 !! c = heap (world_holding sample_flights) 0 !! c).
Proof.
  apply (preprocess_data_route (world_holding sample_flights) 0
           ["JFK"; "JFK"; "LGA"] ["LAX"; "LAX"; "ORD"]);
    vm_compute; reflexivity.
Defined.

(** The route column of the sample flights. *)
Example route_column_sample : route_column sample_flights = Ok sample_routes.
Proof. vm_compute. reflexivity. Qed.

(** ** In-place updates *)

Section wind_facts.
Context `{!Repr (list WindSummaryRow), !Repr (list WindDetailRow)}.

(** C10.  Both column assignments change the object the caller passed.
    When [analyze_wind_impact] returns, the table behind the caller's
    reference is the table it was with the [wind_group] column assigned, no
    new table object exists and no other object has changed.
    [preprocess_data] returns the reference it received, and the table
    behind it is the table it was with the [route] column assigned. *)
Theorem tables_updated_in_place :
  (∀ (w w' : World) (flights_weather_df : loc) r,
     analyze_wind_impact flights_weather_df w = (Ok r, w') →
     ∃ gust wind_group,
       heap w flights_weather_df !! "wind_gust" = Some gust ∧
       apply_wind_group gust = Ok wind_group ∧
       heap w' flights_weather_df !! "wind_group" = Some wind_group ∧
       heap w' flights_weather_df =
         <["wind_group" := wind_group]> (heap w flights_weather_df) ∧
       next_loc w' = next_loc w ∧
       ∀ l, l ≠ flights_weather_df → heap w' l = heap w l) ∧
  (∀ (w w' : World) (flights_df returned : loc),
     preprocess_data flights_df w = (Ok returned, w') →
     returned = flights_df ∧
     ∃ route,
       route_column (heap w flights_df) = Ok route ∧
       heap w' flights_df = <["route" := route]> (heap w flights_df) ∧
       next_loc w' = next_loc w ∧
       ∀ l, l ≠ flights_df → heap w' l = heap w l).
Proof.
  split.
  - intros w w' l r. unfold analyze_wind_impact, bind, deref, lift, setitem, print, ret.
    destruct (getitem (heap w l) "wind_gust") as [gust|] eqn:Hgust; [|done].
    destruct (apply_wind_group gust) as [wind_group|] eqn:Hgroup; [|done].
    simpl. rewrite fn_lookup_insert.
    destruct (wind_detail _) as [detail|]; [|done].
    destruct (wind_summary_of _) as [summary|]; [|done].
    intros [= <- <-]. exists gust, wind_group. simpl.
    rewrite fn_lookup_insert. apply getitem_Ok in Hgust.
    split_and!; [done..|by rewrite lookup_insert_eq|done|done|].
    intros l' Hl'. by rewrite fn_lookup_insert_ne.
  - intros w w' l l'. rewrite preprocess_data_run.
    destruct (route_column (heap w l)) as [route|] eqn:Hroute; [|done].
    intros [= <- <-]. split; [done|]. exists route. simpl.
    rewrite fn_lookup_insert. split_and!; [done..|].
    intros l' Hl'. by rewrite fn_lookup_insert_ne.
Qed.
End wind_facts.

(** The wind summary of the worked example: gusts 9, 10 and 20 with delays
    5, 15 and 25. *)
Example wind_summary_sample :
  (@analyze_wind_impact plain_summary_repr plain_detail_repr
     0 (world_holding sample_weather)).1
  = Ok (sample_wind_detail, sample_wind_summary).
Proof. compute_done. Qed.

Lemma tables_updated_in_place_witness :
  (∃ gust wind_group,
     heap (world_holding sample_weather) 0 !! "wind_gust" = Some gust ∧
     apply_wind_group gust = Ok wind_group ∧
     heap (@analyze_wind_impact plain_summary_repr plain_detail_repr
             0 (world_holding sample_weather)).2 0
       = <["wind_group" := wind_group]> (heap (world_holding sample_weather) 0)) ∧
  (preprocess_data 0 (world_holding sample_flights)).1 = Ok 0 ∧
  heap (preprocess_data 0 (world_holding sample_flights)).2 0
    = <["route" := sample_routes]> (heap (world_holding sample_flights) 0) ∧
  heap (preprocess_data 0 (world_holding sample_flights)).2 1
    = heap (world_holding sample_flights) 1.
Proof.
  assert (preprocess_data 0 (world_holding sample_flights)
          = (Ok 0, (preprocess_data 0 (world_holding sample_flights)).2)) as Hrun.
  { rewrite preprocess_data_run. unfold world_holding at 1.
    cbn [heap]. by rewrite route_column_sample. }
  destruct (@tables_updated_in_place plain_summary_repr plain_detail_repr)
    as [Hwind Hpreprocess].
  destruct (Hwind (world_holding sample_weather)
              (@analyze_wind_impact plain_summary_repr plain_detail_repr
                 0 (world_holding sample_weather)).2
              0 (sample_wind_detail, sample_wind_summary))
    as (gust & wind_group & Hgust & Hgroup & _ & Hheap & _).
  { etransitivity; [apply surjective_pairing|].
    f_equal. apply wind_summary_sample. }
  destruct (Hpreprocess (world_holding sample_flights)
              (preprocess_data 0 (world_holding sample_flights)).2 0 0 Hrun)
    as (_ & route & Hroute & Hrouted & _ & Hothers).
  split; [by exists gust, wind_group|].
  split; [by rewrite Hrun|].
  split; [|by apply Hothers].
  rewrite Hrouted. f_equal.
  unfold world_holding in Hroute. cbn [heap] in Hroute.
  rewrite route_column_sample in Hroute. by injection Hroute.
Defined.

(** ** Report generator *)

Lemma generate_summary_report_run (routes_stats airlines_stats : Stats)
    (wind_summary : list WindSummaryRow) (w : World) :
  generate_summary_report routes_stats airlines_stats wind_summary w =
    match report_text routes_stats airlines_stats wind_summary with
    | Ok text =>
        (Ok (),
         set_text_files (insert report_path text)
           (set_stdout (λ out, out ++ [(NL +:+ text) +:+ NL]) w))
    | Raise e => (Raise e, w)
    end.
Proof.
  unfold generate_summary_report, bind, lift, print, write_text.
  by destruct (report_text _ _ _).
Qed.

(** C4, as the code has it.  When the report generator succeeds, the file
    holds exactly the report text, and standard output has received that
    text with one newline before it and one newline after it. *)
Theorem report_file_is_report_text (routes_stats airlines_stats : Stats)
    (wind_summary : list WindSummaryRow) (w w' : World) :
  generate_summary_report routes_stats airlines_stats wind_summary w = (Ok (), w') →
  ∃ text,
    report_text routes_stats airlines_stats wind_summary = Ok text ∧
    text_files w' !! report_path = Some text ∧
    stdout w' = stdout w ++ [(NL +:+ text) +:+ NL].
Proof.
  rewrite generate_summary_report_run.
  destruct (report_text _ _ _) as [text|]; [|done].
  intros [= <-]. exists text. simpl. by rewrite lookup_insert_eq.
Qed.

Lemma generate_summary_report_sample :
  generate_summary_report sample_route_stats sample_airline_stats
      sample_wind_summary sample_world
  = (Ok (),
     set_text_files (insert report_path sample_report)
       (set_stdout (λ out, out ++ [(NL +:+ sample_report) +:+ NL]) sample_world)).
Proof. rewrite generate_summary_report_run. vm_compute. reflexivity. Qed.

Lemma report_file_is_report_text_witness :
  ∃ text,
    report_text sample_route_stats sample_airline_stats sample_wind_summary = Ok text ∧
    text_files (set_text_files (insert report_path sample_report)
                 (set_stdout (λ out, out ++ [(NL +:+ sample_report) +:+ NL]) sample_world))
      !! report_path = Some text ∧
    stdout (set_text_files (insert report_path sample_report)
             (set_stdout (λ out, out ++ [(NL +:+ sample_report) +:+ NL]) sample_world))
      = stdout sample_world ++ [(NL +:+ text) +:+ NL].
Proof.
  exact (report_file_is_report_text _ _ _ _ _ generate_summary_report_sample).
Defined.

(** C4 as the claim states it fails: on the worked example the generator
    succeeds, and what it printed is not what it wrote to the file. *)
Lemma report_file_differs_from_printed_text :
  ∃ w' file_text printed,
    generate_summary_report sample_route_stats sample_airline_stats
      sample_wind_summary sample_world = (Ok (), w') ∧
    text_files w' !! report_path = Some file_text ∧
    stdout w' = stdout sample_world ++ [printed] ∧
    printed ≠ file_text.
Proof.
  eexists _, sample_report, ((NL +:+ sample_report) +:+ NL).
  split; [apply generate_summary_report_sample|].
  split; [vm_compute; reflexivity|].
  split; [vm_compute; reflexivity|].
  compute_done.
Qed.

Lemma loc_mean_has_group (g : string) (wind_summary : list WindSummaryRow) :
  has_group g wind_summary → ∃ m, loc_mean g wind_summary = Ok m.
Proof.
  unfold has_group. induction wind_summary as [|r t IH]; csimpl.
  - by intros ?%elem_of_nil.
  - intros [->|Hin]%elem_of_cons; case_decide; eauto; done.
Qed.

Lemma loc_mean_lacks_group (g : string) (wind_summary : list WindSummaryRow) :
  ¬ has_group g wind_summary → loc_mean g wind_summary = Raise (KeyError g).
Proof.
  unfold has_group. induction wind_summary as [|r t IH]; csimpl; [done|].
  rewrite not_elem_of_cons. intros [Hne Hnin]. case_decide; [congruence | auto].
Qed.

Global Instance has_group_dec g wind_summary : Decision (has_group g wind_summary).
Proof. unfold has_group. apply _. Defined.

Lemma iloc0_nonempty (t : list AggRow) : t ≠ [] → ∃ r, iloc0 t = Ok r.
Proof. destruct t; [done | eauto]. Qed.

(** Every exception of the report text is a lookup failure. *)
Lemma report_text_Raise (routes_stats airlines_stats : Stats)
    (wind_summary : list WindSummaryRow) (e : exn) :
  report_text routes_stats airlines_stats wind_summary = Raise e →
  is_LookupError e = true.
Proof.
  unfold report_text.
  destruct (iloc0 routes_stats.1.2) eqn:H1; simpl; [|destruct routes_stats.1.2; naive_solver].
  destruct (iloc0 routes_stats.2) eqn:H2; simpl; [|destruct routes_stats.2; naive_solver].
  destruct (iloc0 airlines_stats.1.2) eqn:H3; simpl; [|destruct airlines_stats.1.2; naive_solver].
  destruct (decide (has_group ">= 10mph" wind_summary)) as [Hhi|Hhi].
  - destruct (loc_mean_has_group _ _ Hhi) as [hi ->]. simpl.
    destruct (decide (has_group "< 10mph" wind_summary)) as [Hlo|Hlo].
    + by destruct (loc_mean_has_group _ _ Hlo) as [lo ->].
    + rewrite (loc_mean_lacks_group _ _ Hlo). simpl. by intros [= <-].
  - rewrite (loc_mean_lacks_group _ _ Hhi). simpl. by intros [= <-].
Qed.

Lemma report_text_lacks (routes_stats airlines_stats : Stats)
    (wind_summary : list WindSummaryRow) :
  lacks_wind_group wind_summary →
  ∃ e, report_text routes_stats airlines_stats wind_summary = Raise e.
Proof.
  intros Hlacks. unfold report_text.
  destruct (iloc0 routes_stats.1.2); simpl; [|eauto].
  destruct (iloc0 routes_stats.2); simpl; [|eauto].
  destruct (iloc0 airlines_stats.1.2); simpl; [|eauto].
  destruct (decide (has_group ">= 10mph" wind_summary)) as [Hhi|Hhi].
  - destruct (loc_mean_has_group _ _ Hhi) as [hi ->]. simpl.
    destruct Hlacks as [?|Hlo]; [done|].
    rewrite (loc_mean_lacks_group _ _ Hlo). simpl. eauto.
  - rewrite (loc_mean_lacks_group _ _ Hhi). simpl. eauto.
Qed.

Lemma report_text_Ok (routes_stats airlines_stats : Stats)
    (wind_summary : list WindSummaryRow) :
  top1_rows_exist routes_stats airlines_stats →
  has_group ">= 10mph" wind_summary → has_group "< 10mph" wind_summary →
  ∃ text, report_text routes_stats airlines_stats wind_summary = Ok text.
Proof.
  intros (H1 & H2 & H3) Hhi Hlo. unfold report_text.
  destruct (iloc0_nonempty _ H1) as [r1 ->].
  destruct (iloc0_nonempty _ H2) as [r2 ->].
  destruct (iloc0_nonempty _ H3) as [r3 ->].
  destruct (loc_mean_has_group _ _ Hhi) as [hi ->].
  destruct (loc_mean_has_group _ _ Hlo) as [lo ->].
  simpl. eauto.
Qed.

Section report_facts.
Context `{!ArgSort delay_desc, !ArgSort cancel_desc}.

(** What the aggregators return always has the first rows the report
    reads: an aggregator whose tables are empty has raised already. *)
Lemma aggregator_outputs_have_top1 (flights_df : DataFrame)
    (routes_stats airlines_stats : Stats) :
  analyze Routes flights_df = Ok routes_stats →
  analyze Airlines flights_df = Ok airlines_stats →
  top1_rows_exist routes_stats airlines_stats.
Proof.
  simpl. unfold analyze_routes, analyze_airlines. intros Hr Ha. invert_Ok.
  unfold top1_rows_exist; simpl.
  repeat match goal with
  | H : iloc0 ?t = Ok _ |- _ => destruct t; [discriminate H|]; clear H
  end.
  done.
Qed.

(** C7.  When the wind summary lacks one of the two groups [">= 10mph"] and
    ["< 10mph"], the report generator fails with a lookup failure and
    leaves the world as it was: nothing is printed and no file is written.
    When the three first rows the report reads exist, and they do exist in
    what the aggregators return, it fails exactly when the wind summary
    lacks one of the two groups, and with both groups present it succeeds
    and writes the report file. *)
Theorem report_fails_iff_wind_group_missing (routes_stats airlines_stats : Stats)
    (wind_summary : list WindSummaryRow) (w : World) :
  (lacks_wind_group wind_summary →
   ∃ e, generate_summary_report routes_stats airlines_stats wind_summary w = (Raise e, w) ∧
        is_LookupError e = true) ∧
  (top1_rows_exist routes_stats airlines_stats →
   ((∃ e w', generate_summary_report routes_stats airlines_stats wind_summary w
               = (Raise e, w'))
    ↔ lacks_wind_group wind_summary)) ∧
  (top1_rows_exist routes_stats airlines_stats →
   has_group ">= 10mph" wind_summary → has_group "< 10mph" wind_summary →
   ∃ text w',
     generate_summary_report routes_stats airlines_stats wind_summary w = (Ok (), w') ∧
     text_files w' !! report_path = Some text) ∧
  (∀ flights_df,
     analyze Routes flights_df = Ok routes_stats →
     analyze Airlines flights_df = Ok airlines_stats →
     top1_rows_exist routes_stats airlines_stats).
Proof.
  rewrite generate_summary_report_run. split_and!.
  - intros Hlacks. destruct (report_text_lacks routes_stats airlines_stats _ Hlacks) as [e He].
    rewrite He. exists e. split; [done|]. by eapply report_text_Raise.
  - intros Htop. split.
    + intros (e & w' & Hrun).
      destruct (decide (has_group ">= 10mph" wind_summary)) as [Hhi|]; [|by left].
      destruct (decide (has_group "< 10mph" wind_summary)) as [Hlo|]; [|by right].
      destruct (report_text_Ok _ _ _ Htop Hhi Hlo) as [text Htext].
      by rewrite Htext in Hrun.
    + intros Hlacks.
      destruct (report_text_lacks routes_stats airlines_stats _ Hlacks) as [e He].
      rewrite He. eauto.
  - intros Htop Hhi Hlo. destruct (report_text_Ok _ _ _ Htop Hhi Hlo) as [text ->].
    eexists text, _. split; [done|]. simpl. by rewrite lookup_insert_eq.
  - intros flights_df. apply aggregator_outputs_have_top1.
Qed.
End report_facts.

Lemma report_fails_iff_wind_group_missing_witness :
  (∃ e, generate_summary_report sample_route_stats sample_airline_stats
          calm_wind_summary sample_world = (Raise e, sample_world) ∧
        is_LookupError e = true) ∧
  (∃ text w',
     generate_summary_report sample_route_stats sample_airline_stats
       sample_wind_summary sample_world = (Ok (), w') ∧
     text_files w' !! report_path = Some text).
Proof.
  split.
  - apply (proj1 (@report_fails_iff_wind_group_missing
                    (merge_ArgSort delay_desc) (merge_ArgSort cancel_desc)
                    sample_route_stats sample_airline_stats
                    calm_wind_summary sample_world)).
    left. compute_done.
  - apply (proj1 (proj2 (proj2 (@report_fails_iff_wind_group_missing
                    (merge_ArgSort delay_desc) (merge_ArgSort cancel_desc)
                    sample_route_stats sample_airline_stats
                    sample_wind_summary sample_world)))).
    + repeat split; discriminate.
    + compute_done.
    + compute_done.
Defined.

(** ** The whole run *)

Section run_facts.
Context `{!ArgSort delay_desc, !ArgSort cancel_desc}.
Context `{!Repr (list WindSummaryRow), !Repr (list WindDetailRow)}.

(** A step that prints nothing and saves nothing emits nothing. *)
Lemma emits_quiet (w w' : World) :
  stdout w' = stdout w → text_files w' = text_files w →
  plot_files w' = plot_files w → csv_files w' = csv_files w →
  emits w w' nothing.
Proof.
  intros Hout Htext Hplot Hcsv. unfold emits, nothing; simpl.
  by rewrite Hout, Htext, Hplot, Hcsv, app_nil_r, !(left_id_L ∅ (∪)).
Qed.

Lemma bind_run {A B} (m : M A) (k : A → M B) (w : World) :
  bind m k w =
    match m w with
    | (Ok a, w') => k a w'
    | (Raise e, w') => (Raise e, w')
    end.
Proof. done. Qed.

Lemma load_data_run (w : World) :
  load_data w =
    match csv_files w !! "flights2022.csv", csv_files w !! "flights_weather2022.csv" with
    | None, _ => (Raise (FileNotFoundError "flights2022.csv"), w)
    | Some flights, None =>
        (Raise (FileNotFoundError "flights_weather2022.csv"),
         set_next_loc (S (next_loc w)) (set_heap (<[next_loc w := flights]>) w))
    | Some flights, Some weather =>
        (Ok (next_loc w, S (next_loc w)),
         set_next_loc (S (S (next_loc w)))
           (set_heap (λ h, <[S (next_loc w) := weather]> (<[next_loc w := flights]> h)) w))
    end.
Proof.
  unfold load_data, bind, read_csv, raise, ret.
  destruct (csv_files w !! "flights2022.csv"); simpl; [|done].
  by destruct (csv_files w !! "flights_weather2022.csv").
Qed.

Lemma heap_set_heap (f : (loc → DataFrame) → (loc → DataFrame)) (w : World) :
  heap (set_heap f w) = f (heap w).
Proof. done. Qed.

Lemma analyze_wind_impact_run (flights_weather_df : loc) (w : World) :
  analyze_wind_impact flights_weather_df w =
    match getitem (heap w flights_weather_df) "wind_gust" with
    | Raise e => (Raise e, w)
    | Ok gust =>
    match apply_wind_group gust with
    | Raise e => (Raise e, w)
    | Ok wind_group =>
    let df := <["wind_group" := wind_group]> (heap w flights_weather_df) in
    let w1 := set_heap (λ h, <[flights_weather_df := df]> h) w in
    match wind_detail df with
    | Raise e => (Raise e, w1)
    | Ok wind_grouped_data =>
    match wind_summary_of df with
    | Raise e => (Raise e, w1)
    | Ok wind_summary =>
        (Ok (wind_grouped_data, wind_summary),
         set_stdout (λ out, out ++ wind_banner wind_grouped_data wind_summary) w1)
    end end end end.
Proof.
  cbv zeta. unfold analyze_wind_impact. rewrite bind_run. unfold deref at 1. cbv beta iota.
  rewrite bind_run. unfold lift at 1.
  destruct (getitem _ _) as [gust|]; [|done]. cbv beta iota.
  rewrite bind_run. unfold lift at 1.
  destruct (apply_wind_group gust) as [wind_group|]; [|done]. cbv beta iota.
  rewrite bind_run. unfold setitem at 1. cbv beta iota.
  rewrite bind_run. unfold deref at 1. cbv beta iota.
  rewrite !heap_set_heap. cbv beta. rewrite !fn_lookup_insert.
  rewrite bind_run. unfold lift at 1.
  destruct (wind_detail _) as [detail|]; [|done]. cbv beta iota.
  rewrite bind_run. unfold lift at 1.
  destruct (wind_summary_of _) as [summary|]; [|done]. cbv beta iota.
  cbv beta iota zeta delta [bind print ret set_stdout set_heap wind_banner
    stdout heap csv_files next_loc text_files plot_files].
  f_equal. f_equal. by rewrite <-!app_assoc.
Qed.

Ltac world_simpl :=
  cbn [heap csv_files next_loc stdout text_files plot_files
       set_heap set_next_loc set_stdout set_text_files set_plot_files fst snd].

Ltac heap_lookup :=
  world_simpl;
  repeat first [ rewrite fn_lookup_insert
               | rewrite fn_lookup_insert_ne by lia ].

Ltac stop_quiet := cbv beta iota; split; [done | apply emits_quiet; done].

Lemma main_run (w : World) :
  let '(r, w') := main w in
  r = (pipeline (csv_files w !! "flights2022.csv")
                (csv_files w !! "flights_weather2022.csv")).1 ∧
  emits w w' (pipeline (csv_files w !! "flights2022.csv")
                       (csv_files w !! "flights_weather2022.csv")).2.
Proof.
  unfold main, pipeline. rewrite bind_run, load_data_run.
  destruct (csv_files w !! "flights2022.csv") as [flights|]; [|stop_quiet].
  destruct (csv_files w !! "flights_weather2022.csv") as [weather|]; [|stop_quiet].
  cbv beta iota. rewrite bind_run, preprocess_data_run. heap_lookup.
  destruct (route_column flights) as [route|]; [|stop_quiet].
  cbv beta iota.
  rewrite bind_run. unfold deref at 1. cbv beta iota. heap_lookup.
  rewrite bind_run. unfold lift at 1.
  destruct (analyze_routes _) as [routes_stats|]; [|stop_quiet].
  cbv beta iota.
  rewrite bind_run. unfold lift at 1.
  destruct (analyze_airlines _) as [airlines_stats|]; [|stop_quiet].
  cbv beta iota.
  rewrite bind_run, analyze_wind_impact_run. cbv zeta. heap_lookup.
  destruct (getitem weather "wind_gust") as [gust|]; [|stop_quiet].
  destruct (apply_wind_group gust) as [wind_group|]; [|stop_quiet].
  destruct (wind_detail _) as [wind_grouped_data|]; [|stop_quiet].
  destruct (wind_summary_of _) as [wind_summary|]; [|stop_quiet].
  cbv beta iota.
  rewrite bind_run. unfold create_route_cancellations_plot at 1, savefig at 1.
  cbv beta iota.
  rewrite bind_run. unfold create_airline_delays_plot at 1, savefig at 1.
  cbv beta iota.
  rewrite bind_run. unfold create_wind_impact_plot at 1, savefig at 1.
  cbv beta iota.
  rewrite bind_run, generate_summary_report_run. world_simpl.
  assert (∀ plots : gmap string Figure,
            <[PLOT_DIR +:+ "/wind_impact.png" := wind_impact_figure wind_summary]>
            (<[PLOT_DIR +:+ "/airline_delays.png" := airline_delays_figure airlines_stats.1.2]>
            (<[PLOT_DIR +:+ "/route_cancellations.png" :=
                 route_cancellations_figure routes_stats.2]> plots))
            = saved_charts routes_stats airlines_stats wind_summary ∪ plots) as Hcharts.
  { intros plots. unfold saved_charts.
    by rewrite <-!insert_union_l, (left_id_L ∅ (∪)). }
  destruct (report_text _ _ _) as [text|]; cbv beta iota; unfold ret, emits;
    world_simpl; cbn [printed written charts].
  - split_and!; [done| |apply insert_union_singleton_l|apply Hcharts|done].
    by rewrite <-app_assoc.
  - split_and!; [done..| |apply Hcharts|done].
    by rewrite (left_id_L ∅ (∪)).
Qed.

(** C8.  The run is a function of what the two data files hold.  Two runs
    over the same two tables, whatever else their worlds hold (earlier
    output, an older report, other tables in memory), end alike: with the
    same aggregate tables of the route, airline and wind aggregators, or the
    same exception, and having emitted the same output, the same report
    text and the same charts.  A run leaves the data files as they were. *)
Theorem main_deterministic (w1 w2 : World) :
  csv_files w1 !! "flights2022.csv" = csv_files w2 !! "flights2022.csv" →
  csv_files w1 !! "flights_weather2022.csv"
    = csv_files w2 !! "flights_weather2022.csv" →
  (main w1).1 = (main w2).1 ∧
  ∃ e : Emitted, emits w1 (main w1).2 e ∧ emits w2 (main w2).2 e.
Proof.
  intros Hflights Hweather.
  pose proof (main_run w1) as H1. pose proof (main_run w2) as H2.
  rewrite Hflights, Hweather in H1.
  destruct (main w1) as [r1 w1'], (main w2) as [r2 w2'].
  destruct H1 as [-> He1], H2 as [-> He2]. split; [done|]. eauto.
Qed.
End run_facts.

(** The run on the sample world, under the merge sort and the plain
    rendering. *)
Definition sample_main : M Outputs :=
  @main (merge_ArgSort delay_desc) (merge_ArgSort cancel_desc)
        plain_summary_repr plain_detail_repr.

Example main_sample_outputs :
  (sample_main sample_world).1
  = Ok (sample_route_stats, sample_airline_stats,
        (sample_wind_detail, sample_wind_summary)).
Proof. compute_done. Qed.

Example main_sample_report :
  text_files (sample_main sample_world).2 !! report_path = Some sample_report.
Proof. vm_compute. reflexivity. Qed.

Lemma main_keeps_data_files (w : World) (path : string) :
  csv_files w !! path = csv_files (sample_main w).2 !! path.
Proof.
  pose proof (@main_run (merge_ArgSort delay_desc) (merge_ArgSort cancel_desc)
                plain_summary_repr plain_detail_repr w) as Hrun.
  unfold sample_main. destruct (main w) as [r w'].
  destruct Hrun as (_ & _ & _ & _ & Hcsv). cbn [snd]. by rewrite Hcsv.
Qed.

(** Two runs in a row: the second starts in the world the first has left. *)
Lemma main_deterministic_witness :
  (sample_main sample_world).1 = (sample_main (sample_main sample_world).2).1 ∧
  ∃ e : Emitted,
    emits sample_world (sample_main sample_world).2 e ∧
    emits (sample_main sample_world).2
          (sample_main (sample_main sample_world).2).2 e.
Proof.
  apply (@main_deterministic (merge_ArgSort delay_desc) (merge_ArgSort cancel_desc)
           plain_summary_repr plain_detail_repr
           sample_world (sample_main sample_world).2);
    apply main_keeps_data_files.
Defined.

(** * Further properties of the pipeline *)

(** ** Vocabulary *)

(** The order of text in which [groupby] lists its keys. *)
Definition str_lt (a b : string) : Prop := String.ltb a b = true.

(** The rows of a table whose grouping key is present. *)
Definition rows_with_a_key {K} (keys : list (option K)) : list nat :=
  filter (λ i, is_Some (mjoin (keys !! i))) (seq 0 (length keys)).

Definition Z_sum (ns : list Z) : Z := foldr Z.add 0%Z ns.

(** ** The order of text *)

Lemma ascii_compare_Lt_trans (a b c : ascii) :
  Ascii.compare a b = Lt → Ascii.compare b c = Lt → Ascii.compare a c = Lt.
Proof.
  unfold Ascii.compare. rewrite !N.compare_lt_iff. apply N.lt_trans.
Qed.

Lemma string_compare_Lt_trans (s1 s2 s3 : string) :
  String.compare s1 s2 = Lt → String.compare s2 s3 = Lt → String.compare s1 s3 = Lt.
Proof.
  revert s2 s3. induction s1 as [|a s1 IH]; intros [|b s2] [|c s3]; simpl; try done.
  destruct (Ascii.compare a b) eqn:Hab; [|clear IH|done].
  - apply Ascii.compare_eq_iff in Hab as ->.
    destruct (Ascii.compare b c); [apply IH|done..].
  - destruct (Ascii.compare b c) eqn:Hbc; [|intros _ _|done].
    + apply Ascii.compare_eq_iff in Hbc as <-. by rewrite Hab.
    + by rewrite (ascii_compare_Lt_trans a b c).
Qed.

Global Instance str_lt_trans : Transitive str_lt.
Proof.
  unfold str_lt, String.ltb. intros s1 s2 s3 H12 H23.
  destruct (String.compare s1 s2) eqn:E12; try done.
  destruct (String.compare s2 s3) eqn:E23; try done.
  by rewrite (string_compare_Lt_trans s1 s2 s3).
Qed.

Lemma str_ltb_connex (a b : string) :
  String.ltb a b = false → a ≠ b → String.ltb b a = true.
Proof.
  unfold String.ltb. rewrite (String.compare_antisym b a).
  destruct (String.compare a b) eqn:E; simpl; try done.
  apply String.compare_eq_iff in E. done.
Qed.

Lemma str_lt_irrefl (a : string) : ¬ str_lt a a.
Proof.
  unfold str_lt, String.ltb. pose proof (String.compare_antisym a a) as H.
  destruct (String.compare a a); simpl in H; done.
Qed.

(** ** More on grouping *)

Section groupby_more.
Context {K A : Type} `{EqDecision K} (ltb : K → K → bool).
Implicit Types (gs : list (K * list A)) (k : K) (x : A).
Implicit Types (keys : list (option K)) (rows xs : list A).

Lemma foldl_group_insert_keys gs (kxs : list (option K * A)) k :
  k ∈ (foldl (group_insert ltb) gs kxs).*1 →
  k ∈ gs.*1 ∨ ∃ x, (Some k, x) ∈ kxs.
Proof.
  revert gs. induction kxs as [|[[k'|] x] kxs IH]; intros gs; simpl; [auto|..].
  - intros [Hin|[y Hy]]%IH.
    + unfold group_insert in Hin; simpl in Hin. case_decide.
      * rewrite group_append_keys in Hin. auto.
      * rewrite group_new_keys in Hin. apply elem_of_cons in Hin as [->|?]; [|auto].
        right. exists x. apply elem_of_cons. auto.
    + right. exists y. apply elem_of_cons. auto.
  - intros [Hin|[y Hy]]%IH; [by left|].
    right. exists y. apply elem_of_cons. auto.
Qed.

(** A key of a group is the key of a row. *)
Lemma groupby_sound keys rows k :
  k ∈ (groupby ltb keys rows).*1 → ∃ x, (Some k, x) ∈ zip keys rows.
Proof.
  intros [Hin|?]%foldl_group_insert_keys; [|done].
  by apply elem_of_nil in Hin.
Qed.

Lemma group_append_concat k x gs :
  k ∈ gs.*1 → concat (group_append k x gs).*2 ≡ₚ x :: concat gs.*2.
Proof.
  induction gs as [|[k' xs] gs IH]; csimpl; [by intros ?%elem_of_nil|].
  intros Hin. case_decide as Hk; csimpl.
  - rewrite <-app_assoc. simpl. symmetry. apply Permutation_middle.
  - apply elem_of_cons in Hin as [?|Hin]; [done|].
    rewrite (IH Hin). symmetry. apply Permutation_middle.
Qed.

Lemma group_new_concat k x gs :
  concat (group_new ltb k x gs).*2 ≡ₚ x :: concat gs.*2.
Proof.
  induction gs as [|[k' xs] gs IH]; csimpl; [done|].
  destruct (ltb k k'); csimpl; [done|].
  rewrite IH. symmetry. apply Permutation_middle.
Qed.

Lemma foldl_group_insert_concat gs (kxs : list (option K * A)) :
  concat (foldl (group_insert ltb) gs kxs).*2 ≡ₚ
    concat gs.*2 ++ (filter (λ kx, is_Some kx.1) kxs).*2.
Proof.
  revert gs. induction kxs as [|[[k|] x] kxs IH]; intros gs; cbn [foldl].
  - by rewrite filter_nil, app_nil_r.
  - rewrite IH, filter_cons_True by (simpl; eauto). csimpl.
    rewrite <-Permutation_middle, app_comm_cons. apply Permutation_app_tail.
    unfold group_insert; simpl. case_decide.
    + by apply group_append_concat.
    + apply group_new_concat.
  - rewrite IH, filter_cons_False; [done|]. simpl. by intros [? ?].
Qed.

(** The groups split the rows that have a key: every such row is in one
    group and in one only. *)
Lemma groupby_concat keys rows :
  concat (groupby ltb keys rows).*2 ≡ₚ
    (filter (λ kx, is_Some kx.1) (zip keys rows)).*2.
Proof. unfold groupby. by rewrite foldl_group_insert_concat. Qed.

Section sorted_keys.
Hypothesis ltb_connex : ∀ a b, ltb a b = false → a ≠ b → ltb b a = true.

Lemma group_new_sorted k x gs :
  k ∉ gs.*1 →
  Sorted (λ a b, ltb a b = true) gs.*1 →
  Sorted (λ a b, ltb a b = true) (group_new ltb k x gs).*1.
Proof.
  induction gs as [|[k' xs] gs IH]; csimpl; [by repeat constructor|].
  rewrite not_elem_of_cons. intros [Hne Hnin] Hs.
  destruct (ltb k k') eqn:Hlt; csimpl.
  { constructor; [done|]. by constructor. }
  apply Sorted_inv in Hs as [Hs Hhd]. constructor; [by apply IH|].
  destruct gs as [|[k'' ys] gs]; csimpl.
  - constructor. by apply ltb_connex.
  - destruct (ltb k k''); csimpl; constructor.
    + by apply ltb_connex.
    + by apply HdRel_inv in Hhd.
Qed.

Lemma groupby_sorted keys rows :
  Sorted (λ a b, ltb a b = true) (groupby ltb keys rows).*1.
Proof.
  unfold groupby. generalize (zip keys rows) as kxs. intros kxs.
  assert (Sorted (λ a b, ltb a b = true) (@nil (K * list A)).*1) as Hs by constructor.
  revert Hs. generalize (@nil (K * list A)) as gs.
  induction kxs as [|[[k|] x] kxs IH]; intros gs Hs; simpl; [done|..].
  - apply IH. unfold group_insert; simpl. case_decide.
    + by rewrite group_append_keys.
    + by apply group_new_sorted.
  - by apply IH.
Qed.
End sorted_keys.
End groupby_more.

Lemma rows_with_a_key_zip {K} (pre keys : list (option K)) :
  (filter (λ kx : option K * nat, is_Some kx.1)
          (zip keys (seq (length pre) (length keys)))).*2 =
    filter (λ i, is_Some (mjoin ((pre ++ keys) !! i)))
           (seq (length pre) (length keys)).
Proof.
  revert pre. induction keys as [|a keys IH]; intros pre; csimpl; [done|].
  specialize (IH (pre ++ [a])).
  rewrite length_app, Nat.add_1_r, <-app_assoc in IH; simpl in IH.
  destruct a as [k|].
  - rewrite !filter_cons_True; [by csimpl; rewrite IH|..].
    + rewrite list_lookup_middle by done. simpl. eauto.
    + simpl. eauto.
  - rewrite !filter_cons_False; [done|..].
    + rewrite list_lookup_middle by done. simpl. by intros [? ?].
    + simpl. by intros [? ?].
Qed.

(** The groups of [group_indices] split the rows that have a key. *)
Lemma group_indices_concat {K} `{EqDecision K} (ltb : K → K → bool)
    (keys : list (option K)) :
  concat (group_indices ltb keys).*2 ≡ₚ rows_with_a_key keys.
Proof.
  unfold group_indices. rewrite groupby_concat.
  apply reflexive_eq, (rows_with_a_key_zip [] keys).
Qed.

Lemma group_indices_sound {K} `{EqDecision K} (ltb : K → K → bool)
    (keys : list (option K)) (k : K) :
  k ∈ (group_indices ltb keys).*1 → Some k ∈ keys.
Proof.
  intros [i Hin]%groupby_sound. by apply elem_of_zip_l in Hin.
Qed.

Lemma group_indices_complete {K} `{EqDecision K} (ltb : K → K → bool)
    (keys : list (option K)) (k : K) :
  Some k ∈ keys → k ∈ (group_indices ltb keys).*1.
Proof.
  intros [i Hi]%list_elem_of_lookup.
  destruct (groupby_complete ltb keys (seq 0 (length keys)) k) as [idx Hin].
  - rewrite (rows_with_key_seq k [] keys). simpl.
    intros Hnil. assert (i ∈ @nil nat) as Hbad; [|by apply elem_of_nil in Hbad].
    rewrite <-Hnil. apply list_elem_of_filter. split; [done|].
    apply elem_of_seq. apply lookup_lt_Some in Hi. lia.
  - apply list_elem_of_fmap. by exists (k, idx).
Qed.

(** ** More on the route and airline aggregators *)

Lemma delays_cancels_columns (df : DataFrame) (by_ : string)
    (keys : list text) (delays : list float) (dep_time : column) :
  df !! by_ = Some (ObjCol keys) →
  df !! "dep_delay" = Some (FloatCol delays) →
  df !! "dep_time" = Some dep_time →
  delays_cancels df by_ = Ok (agg_row delays dep_time <$> group_indices String.ltb keys).
Proof.
  intros Hk Hd Ht. unfold delays_cancels.
  rewrite agg_columns_present by (repeat constructor; by rewrite ?Hd, ?Ht).
  unfold getitem. by rewrite Hk, Hd, Ht.
Qed.

Lemma agg_row_keys (delays : list float) (dep_time : column)
    (gs : list (string * list nat)) :
  key <$> (agg_row delays dep_time <$> gs) = gs.*1.
Proof. rewrite <-list_fmap_compose. by apply list_fmap_ext. Qed.

Lemma select_nil {A} (idx : list nat) : select (@nil A) idx = [].
Proof. unfold select. by induction idx. Qed.

Lemma Sorted_str_ltb (ks : list string) :
  Sorted (λ a b, String.ltb a b = true) ks → StronglySorted str_lt ks.
Proof. intros Hs. apply Sorted_StronglySorted; [apply _ | exact Hs]. Qed.

Section aggregator_more.
Context `{!ArgSort delay_desc, !ArgSort cancel_desc}.

(** X1.  The aggregate table of either aggregator has one row for each
    distinct key that is present in the grouping column and no other row,
    and its rows are in ascending order of the key. *)
Theorem aggregate_one_row_per_key (a : aggregator) (df : DataFrame) (s : Stats) :
  analyze a df = Ok s →
  ∃ keys,
    df !! group_column a = Some (ObjCol keys) ∧
    NoDup (key <$> s.1.1) ∧
    (∀ k, k ∈ key <$> s.1.1 ↔ Some k ∈ keys) ∧
    StronglySorted str_lt (key <$> s.1.1).
Proof.
  intros (Hagg & _ & _)%analyze_Ok.
  apply delays_cancels_Ok in Hagg as (keys & delays & dep_time & Hk & _ & _ & ->).
  exists keys. rewrite agg_row_keys. split_and!; [done|..].
  - apply groupby_NoDup.
  - intros k. split; [apply group_indices_sound | apply group_indices_complete].
  - apply Sorted_str_ltb, groupby_sorted, str_ltb_connex.
Qed.

Lemma Z_sum_filter_concat {A} (P : A → Prop) `{∀ x, Decision (P x)}
    (ls : list (list A)) :
  Z_sum ((λ l, Z.of_nat (length (filter P l))) <$> ls) =
    Z.of_nat (length (filter P (concat ls))).
Proof.
  induction ls as [|l ls IH]; csimpl; [done|].
  rewrite IH, list.filter_app, length_app. lia.
Qed.

(** X2.  The cancellation counts of the groups add up to the number of rows
    of the table that have a grouping key and no departure time: no
    cancelled flight with a key is lost or counted twice. *)
Theorem total_cancellations_add_up (a : aggregator) (df : DataFrame) (s : Stats) :
  analyze a df = Ok s →
  ∃ keys dep_time,
    df !! group_column a = Some (ObjCol keys) ∧
    df !! "dep_time" = Some dep_time ∧
    Z_sum (total_cancellations <$> s.1.1) =
      Z.of_nat (length (filter (λ i, col_isna dep_time !! i = Some true)
                               (rows_with_a_key keys))).
Proof.
  intros (Hagg & _ & _)%analyze_Ok.
  apply delays_cancels_Ok in Hagg as (keys & delays & dep_time & Hk & _ & Ht & ->).
  exists keys, dep_time. split_and!; [done..|].
  rewrite <-(group_indices_concat String.ltb keys).
  rewrite <-Z_sum_filter_concat, <-!list_fmap_compose.
  f_equal. apply list_fmap_ext. intros _ [k idx] _. simpl. apply isna_sum_take.
Qed.

(** X3.  Given the three columns it reads, an aggregator returns exactly
    when some row has a key: on a table with no row, or with no key present,
    it raises [IndexError] (the log line reads the first row of an empty
    view). *)
Theorem aggregator_returns_iff_key_present (a : aggregator) (df : DataFrame)
    (keys : list text) (delays : list float) (dep_time : column) :
  df !! group_column a = Some (ObjCol keys) →
  df !! "dep_delay" = Some (FloatCol delays) →
  df !! "dep_time" = Some dep_time →
  (Forall (λ k, k = None) keys → analyze a df = Raise IndexError) ∧
  ((∃ k, Some k ∈ keys) → ∃ s, analyze a df = Ok s).
Proof.
  intros Hk Hd Ht.
  pose proof (delays_cancels_columns df _ keys delays dep_time Hk Hd Ht) as Hagg.
  split.
  - intros Hnone.
    assert (group_indices String.ltb keys = []) as Hnil.
    { destruct (group_indices String.ltb keys) as [|[k idx] gs] eqn:Hgs; [done|].
      assert (Some k ∈ keys) as Hin.
      { apply (group_indices_sound String.ltb). rewrite Hgs. csimpl. left. }
      rewrite list.Forall_forall in Hnone. by apply Hnone in Hin. }
    rewrite Hnil in Hagg.
    destruct a; cbn [analyze group_column] in *;
      unfold analyze_routes, analyze_airlines; rewrite Hagg; simpl;
      unfold top_by_delay, head, sort_values; by rewrite select_nil.
  - intros [k Hin].
    apply (group_indices_complete String.ltb) in Hin.
    set (agg := agg_row delays dep_time <$> group_indices String.ltb keys) in *.
    assert (0 < length agg) as Hlen.
    { unfold agg. rewrite length_fmap, <-(length_fmap fst).
      destruct ((group_indices String.ltb keys).*1); [by apply elem_of_nil in Hin|simpl; lia]. }
    clearbody agg.
    destruct (head_sort_values_ranked delay_desc mean_dep_delay agg) as (_ & Hd1 & _).
    destruct (head_sort_values_ranked cancel_desc total_cancellations agg) as (_ & Hc1 & _).
    fold (top_by_delay agg) in Hd1. fold (top_by_cancellations agg) in Hc1.
    unfold TOP_N in Hd1, Hc1.
    destruct (top_by_delay agg) as [|r1 v1] eqn:Hv1; [cbn [length] in Hd1; lia|].
    destruct (top_by_cancellations agg) as [|r2 v2] eqn:Hv2; [cbn [length] in Hc1; lia|].
    destruct a; cbn [analyze group_column] in *;
      unfold analyze_routes, analyze_airlines; rewrite Hagg; cbn [rbind];
      rewrite ?Hv1, ?Hv2; simpl; eauto.
Qed.

(** X4.  An aggregator raises [KeyError] when the table lacks a column it
    reads: the grouping column, or, with the grouping column in place,
    [dep_delay] or [dep_time]. *)
Theorem aggregator_missing_column (a : aggregator) (df : DataFrame) :
  (df !! group_column a = None →
   analyze a df = Raise (KeyError (group_column a))) ∧
  (∀ keys, df !! group_column a = Some (ObjCol keys) →
     df !! "dep_delay" = None ∨ df !! "dep_time" = None →
     ∃ k, analyze a df = Raise (KeyError k)).
Proof.
  split.
  - intros Hk. destruct a; cbn [analyze group_column] in *;
      unfold analyze_routes, analyze_airlines, delays_cancels, getitem;
      by rewrite Hk.
  - intros keys Hk Hmissing.
    assert (∃ k, delays_cancels df (group_column a) = Raise (KeyError k)) as [k Hagg].
    { unfold delays_cancels, getitem. rewrite Hk. cbn [rbind as_text].
      destruct (agg_columns_missing df ["dep_delay"; "dep_time"]
                  (if decide (df !! "dep_delay" = None)
                   then "dep_delay" else "dep_time")) as [k ->].
      - case_decide; repeat constructor.
      - case_decide; [done|]. by destruct Hmissing.
      - by exists k. }
    exists k. destruct a; cbn [analyze group_column] in *;
      unfold analyze_routes, analyze_airlines; by rewrite Hagg.
Qed.
End aggregator_more.

(** ** More on ranking *)

Global Instance delay_desc_refl : Reflexive delay_desc.
Proof. intros [x|]; simpl; [apply Qcle_refl | done]. Qed.

Global Instance cancel_desc_refl : Reflexive cancel_desc.
Proof. intros x. unfold cancel_desc. lia. Qed.

Lemma ranked_view_first {K} (R : relation K) `{!Reflexive R} (by_ : AggRow → K)
    (t view : list AggRow) (top : AggRow) :
  ranked_view R by_ t (top :: view) →
  top ∈ t ∧ ∀ r, r ∈ t → R (by_ top) (by_ r).
Proof.
  intros (_ & _ & Hsorted & rest & Hperm & Hrest). split.
  - rewrite <-Hperm. set_solver.
  - intros r Hr. rewrite <-Hperm in Hr.
    apply elem_of_app in Hr as [Hr|Hr]; [|apply Hrest; [set_solver | done]].
    apply elem_of_cons in Hr as [->|Hr]; [done|].
    csimpl in Hsorted. apply StronglySorted_inv in Hsorted as [_ Hall].
    rewrite list.Forall_forall in Hall. apply Hall, list_elem_of_fmap. eauto.
Qed.

Section ranking_more.
Context `{!ArgSort delay_desc, !ArgSort cancel_desc}.

Lemma top_by_delay_nil : top_by_delay [] = [].
Proof. unfold top_by_delay, head, sort_values. by rewrite select_nil. Qed.

Lemma analyze_Ok_nonempty (a : aggregator) (df : DataFrame) (s : Stats) :
  analyze a df = Ok s → s.1.1 ≠ [].
Proof.
  destruct a; simpl; unfold analyze_routes, analyze_airlines; intros H; invert_Ok;
    simpl; intros ->;
    match goal with
    | H : iloc0 (top_by_delay []) = Ok _ |- _ => by rewrite top_by_delay_nil in H
    end.
Qed.

(** X5.  The first row of each ranked view, the one the log lines and the
    report name as the worst, is a row of the aggregate table whose metric
    no row of the table exceeds: no mean delay is above its mean delay (a
    NaN mean counts as lowest), no cancellation count above its count. *)
Theorem ranked_first_rows_are_maximal (a : aggregator) (df : DataFrame) (s : Stats) :
  analyze a df = Ok s →
  ∃ worst_delay worst_cancellations,
    iloc0 s.1.2 = Ok worst_delay ∧
    iloc0 s.2 = Ok worst_cancellations ∧
    worst_delay ∈ s.1.1 ∧
    worst_cancellations ∈ s.1.1 ∧
    (∀ r, r ∈ s.1.1 →
       delay_desc (mean_dep_delay worst_delay) (mean_dep_delay r)) ∧
    (∀ r, r ∈ s.1.1 →
       (total_cancellations r ≤ total_cancellations worst_cancellations)%Z).
Proof.
  intros Hrun. pose proof (analyze_Ok_nonempty a df s Hrun) as Hne.
  apply analyze_Ok in Hrun as (_ & Hv1 & Hv2).
  pose proof (head_sort_values_ranked delay_desc mean_dep_delay s.1.1) as Hr1.
  pose proof (head_sort_values_ranked cancel_desc total_cancellations s.1.1) as Hr2.
  fold (top_by_delay s.1.1) in Hr1. fold (top_by_cancellations s.1.1) in Hr2.
  rewrite <-Hv1 in Hr1. rewrite <-Hv2 in Hr2.
  assert (0 < length s.1.1) as Hlen by (destruct s.1.1; [done | simpl; lia]).
  destruct s.1.2 as [|worst_delay v1].
  { destruct Hr1 as (_ & Hl & _). unfold TOP_N in Hl. cbn [length] in Hl. lia. }
  destruct s.2 as [|worst_cancellations v2].
  { destruct Hr2 as (_ & Hl & _). unfold TOP_N in Hl. cbn [length] in Hl. lia. }
  apply ranked_view_first in Hr1 as [Hin1 Hmax1]; [|apply _].
  apply ranked_view_first in Hr2 as [Hin2 Hmax2]; [|apply _].
  exists worst_delay, worst_cancellations. split_and!; done.
Qed.

(** X6.  No key appears twice in a ranked view, every row of a view is a
    row of the aggregate table, the two views have the same number of rows,
    and when the table has at most 9 rows each view lists all of them. *)
Theorem ranked_views_list_distinct_groups (a : aggregator) (df : DataFrame) (s : Stats) :
  analyze a df = Ok s →
  NoDup (key <$> s.1.2) ∧ NoDup (key <$> s.2) ∧
  s.1.2 ⊆ s.1.1 ∧ s.2 ⊆ s.1.1 ∧
  length s.1.2 = length s.2 ∧
  (length s.1.1 ≤ TOP_N → s.1.2 ≡ₚ s.1.1 ∧ s.2 ≡ₚ s.1.1).
Proof.
  intros Hrun.
  assert (NoDup (key <$> s.1.1)) as Hnd.
  { apply analyze_Ok in Hrun as (Hagg & _ & _).
    apply delays_cancels_Ok in Hagg as (keys & delays & dep_time & _ & _ & _ & ->).
    rewrite agg_row_keys. apply groupby_NoDup. }
  apply analyze_Ok in Hrun as (_ & -> & ->).
  unfold top_by_delay, top_by_cancellations, head.
  pose proof (sort_values_perm delay_desc mean_dep_delay s.1.1) as Hp1.
  pose proof (sort_values_perm cancel_desc total_cancellations s.1.1) as Hp2.
  split_and!.
  - rewrite fmap_take. eapply sublist_NoDup; [|apply sublist_take]. by rewrite Hp1.
  - rewrite fmap_take. eapply sublist_NoDup; [|apply sublist_take]. by rewrite Hp2.
  - intros r (i & Hr%list_elem_of_lookup_2 & _)%elem_of_take. by rewrite Hp1 in Hr.
  - intros r (i & Hr%list_elem_of_lookup_2 & _)%elem_of_take. by rewrite Hp2 in Hr.
  - by rewrite !length_take, (Permutation_length Hp1), (Permutation_length Hp2).
  - intros Hlen. by rewrite !take_ge by
      (rewrite ?(Permutation_length Hp1), ?(Permutation_length Hp2); done).
Qed.
End ranking_more.

(** The sample flights with no route on any row. *)
Definition unrouted_flights : DataFrame :=
  <["route" := ObjCol [None; None; None] ]> sample_flights.

Lemma aggregate_one_row_per_key_witness :
  ∃ keys,
    sample_flights_routed !! "route" = Some (ObjCol keys) ∧
    NoDup (key <$> sample_route_stats.1.1) ∧
    (∀ k, k ∈ key <$> sample_route_stats.1.1 ↔ Some k ∈ keys) ∧
    StronglySorted str_lt (key <$> sample_route_stats.1.1).
Proof.
  exact (@aggregate_one_row_per_key
           (merge_ArgSort delay_desc) (merge_ArgSort cancel_desc)
           Routes sample_flights_routed sample_route_stats analyze_routes_sample).
Defined.

Lemma total_cancellations_add_up_witness :
  ∃ keys dep_time,
    sample_flights_routed !! "route" = Some (ObjCol keys) ∧
    sample_flights_routed !! "dep_time" = Some dep_time ∧
    Z_sum (total_cancellations <$> sample_route_stats.1.1) =
      Z.of_nat (length (filter (λ i, col_isna dep_time !! i = Some true)
                               (rows_with_a_key keys))).
Proof.
  exact (@total_cancellations_add_up
           (merge_ArgSort delay_desc) (merge_ArgSort cancel_desc)
           Routes sample_flights_routed sample_route_stats analyze_routes_sample).
Defined.

Lemma aggregator_returns_iff_key_present_witness :
  (Forall (λ k : text, k = None) [None; None; None] →
   @analyze (merge_ArgSort delay_desc) (merge_ArgSort cancel_desc)
     Routes unrouted_flights = Raise IndexError) ∧
  ((∃ k : string, Some k ∈ [None; None; None]) →
   ∃ s, @analyze (merge_ArgSort delay_desc) (merge_ArgSort cancel_desc)
          Routes unrouted_flights = Ok s).
Proof.
  apply (@aggregator_returns_iff_key_present
           (merge_ArgSort delay_desc) (merge_ArgSort cancel_desc)
           Routes unrouted_flights [None; None; None]
           [num 10; num 30; None] (FloatCol [num 1200; None; None]));
    vm_compute; reflexivity.
Defined.

(** On the table without routes the route aggregator raises. *)
Example analyze_routes_unrouted :
  @analyze (merge_ArgSort delay_desc) (merge_ArgSort cancel_desc)
    Routes unrouted_flights = Raise IndexError.
Proof. compute_done. Qed.

Lemma ranked_first_rows_are_maximal_witness :
  ∃ worst_delay worst_cancellations,
    iloc0 sample_route_stats.1.2 = Ok worst_delay ∧
    iloc0 sample_route_stats.2 = Ok worst_cancellations ∧
    worst_delay ∈ sample_route_stats.1.1 ∧
    worst_cancellations ∈ sample_route_stats.1.1 ∧
    (∀ r, r ∈ sample_route_stats.1.1 →
       delay_desc (mean_dep_delay worst_delay) (mean_dep_delay r)) ∧
    (∀ r, r ∈ sample_route_stats.1.1 →
       (total_cancellations r ≤ total_cancellations worst_cancellations)%Z).
Proof.
  exact (@ranked_first_rows_are_maximal
           (merge_ArgSort delay_desc) (merge_ArgSort cancel_desc)
           Routes sample_flights_routed sample_route_stats analyze_routes_sample).
Defined.

Lemma ranked_views_list_distinct_groups_witness :
  NoDup (key <$> sample_route_stats.1.2) ∧ NoDup (key <$> sample_route_stats.2) ∧
  sample_route_stats.1.2 ⊆ sample_route_stats.1.1 ∧
  sample_route_stats.2 ⊆ sample_route_stats.1.1 ∧
  length sample_route_stats.1.2 = length sample_route_stats.2 ∧
  (length sample_route_stats.1.1 ≤ TOP_N →
   sample_route_stats.1.2 ≡ₚ sample_route_stats.1.1 ∧
   sample_route_stats.2 ≡ₚ sample_route_stats.1.1).
Proof.
  exact (@ranked_views_list_distinct_groups
           (merge_ArgSort delay_desc) (merge_ArgSort cancel_desc)
           Routes sample_flights_routed sample_route_stats analyze_routes_sample).
Defined.

(** ** More on the preprocessor *)

Lemma route_column_text (df : DataFrame) (origins dests : list text) :
  df !! "origin" = Some (ObjCol origins) →
  df !! "dest" = Some (ObjCol dests) →
  route_column df =
    Ok (ObjCol (zip_with str_add ((λ x, str_add x (Some "-")) <$> origins) dests)).
Proof.
  intros Ho Hd. unfold route_column, getitem. by rewrite Ho, Hd.
Qed.

(** X7.  On text columns [origin] and [dest] the preprocessor succeeds
    whatever values are absent: a row gets the route [origin + "-" + dest]
    when both are present, and an absent route when either is absent. *)
Theorem preprocess_data_absent_values (w : World) (flights_df : loc)
    (origins dests : list text) :
  heap w flights_df !! "origin" = Some (ObjCol origins) →
  heap w flights_df !! "dest" = Some (ObjCol dests) →
  ∃ routes w',
    preprocess_data flights_df w = (Ok flights_df, w') ∧
    heap w' flights_df !! "route" = Some (ObjCol routes) ∧
    ∀ i o d, origins !! i = Some o → dests !! i = Some d →
      routes !! i =
        Some (match o, d with
              | Some a, Some b => Some ((a +:+ "-") +:+ b)
              | _, _ => None
              end) ∧
      (routes !! i = Some None ↔ o = None ∨ d = None).
Proof.
  intros Ho Hd. rewrite preprocess_data_run.
  rewrite (route_column_text _ origins dests Ho Hd).
  eexists _, _. split; [done|]. cbn [heap set_heap]. rewrite fn_lookup_insert.
  split; [by rewrite lookup_insert_eq|].
  intros i o d Hio Hid.
  rewrite lookup_zip_with, list_lookup_fmap, Hio, Hid. simpl.
  destruct o as [a|], d as [b|]; simpl; (split; [done|]).
  - split; [done | by intros [?|?]].
  - split; [by right | done].
  - split; [by left | done].
  - split; [by left | done].
Qed.

(** X8.  When the table lacks [origin], or has it and lacks [dest], the
    preprocessor raises [KeyError] for that column and changes nothing: the
    table gets no [route] column. *)
Theorem preprocess_data_missing_column (w : World) (flights_df : loc) :
  (heap w flights_df !! "origin" = None →
   preprocess_data flights_df w = (Raise (KeyError "origin"), w)) ∧
  (∀ origins, heap w flights_df !! "origin" = Some (ObjCol origins) →
     heap w flights_df !! "dest" = None →
     preprocess_data flights_df w = (Raise (KeyError "dest"), w)).
Proof.
  split.
  - intros Ho. rewrite preprocess_data_run. unfold route_column, getitem. by rewrite Ho.
  - intros origins Ho Hd. rewrite preprocess_data_run.
    unfold route_column, getitem. by rewrite Ho, Hd.
Qed.

Lemma route_column_insert_route (df : DataFrame) (route : column) :
  route_column (<["route" := route]> df) = route_column df.
Proof.
  unfold route_column, getitem. by rewrite !lookup_insert_ne.
Qed.

(** X9.  Preprocessing a table that has been preprocessed changes nothing:
    the second call succeeds and leaves every table as the first call left
    it. *)
Theorem preprocess_data_idempotent (w w1 : World) (flights_df returned : loc) :
  preprocess_data flights_df w = (Ok returned, w1) →
  ∃ w2,
    preprocess_data returned w1 = (Ok flights_df, w2) ∧
    (∀ l, heap w2 l = heap w1 l) ∧
    next_loc w2 = next_loc w1 ∧ stdout w2 = stdout w1 ∧
    text_files w2 = text_files w1 ∧ plot_files w2 = plot_files w1 ∧
    csv_files w2 = csv_files w1.
Proof.
  rewrite preprocess_data_run.
  destruct (route_column (heap w flights_df)) as [route|] eqn:Hroute; [|done].
  intros [= <- <-]. rewrite preprocess_data_run.
  cbn [heap set_heap]. rewrite fn_lookup_insert, route_column_insert_route, Hroute.
  eexists. split; [done|]. cbn [heap set_heap next_loc stdout text_files plot_files csv_files].
  split_and!; [|done..].
  intros l. rewrite fn_lookup_insert, insert_insert_eq.
  destruct (decide (flights_df = l)) as [->|Hne].
  - by rewrite !fn_lookup_insert.
  - by rewrite !fn_lookup_insert_ne.
Qed.

(** A table in which the second flight has no destination. *)
Definition flights_missing_dest : DataFrame :=
  <["dest" := ObjCol [Some "LAX"; None; Some "ORD"] ]> sample_flights.

Lemma preprocess_data_absent_values_witness :
  ∃ routes w',
    preprocess_data 0 (world_holding flights_missing_dest) = (Ok 0, w') ∧
    heap w' 0 !! "route" = Some (ObjCol routes) ∧
    ∀ i o d, [Some "JFK"; Some "JFK"; Some "LGA"] !! i = Some o →
             [Some "LAX"; None; Some "ORD"] !! i = Some d →
      routes !! i =
        Some (match o, d with
              | Some a, Some b => Some ((a +:+ "-") +:+ b)
              | _, _ => None
              end) ∧
      (routes !! i = Some None ↔ o = None ∨ d = None).
Proof.
  apply (preprocess_data_absent_values (world_holding flights_missing_dest) 0
           [Some "JFK"; Some "JFK"; Some "LGA"] [Some "LAX"; None; Some "ORD"]);
    vm_compute; reflexivity.
Defined.

Example route_column_missing_dest :
  route_column flights_missing_dest
  = Ok (ObjCol [Some "JFK-LAX"; None; Some "LGA-ORD"]).
Proof. vm_compute. reflexivity. Qed.

Lemma preprocess_data_idempotent_witness :
  ∃ w2,
    preprocess_data 0 (preprocess_data 0 (world_holding sample_flights)).2
      = (Ok 0, w2) ∧
    (∀ l, heap w2 l = heap (preprocess_data 0 (world_holding sample_flights)).2 l) ∧
    next_loc w2 = next_loc (preprocess_data 0 (world_holding sample_flights)).2 ∧
    stdout w2 = stdout (preprocess_data 0 (world_holding sample_flights)).2 ∧
    text_files w2 = text_files (preprocess_data 0 (world_holding sample_flights)).2 ∧
    plot_files w2 = plot_files (preprocess_data 0 (world_holding sample_flights)).2 ∧
    csv_files w2 = csv_files (preprocess_data 0 (world_holding sample_flights)).2.
Proof.
  apply (preprocess_data_idempotent (world_holding sample_flights) _ 0 0).
  rewrite preprocess_data_run. unfold world_holding at 1 3. cbn [heap].
  by rewrite route_column_sample.
Defined.

(** ** More on the wind aggregator *)

(** The wind column the classifier assigns for a numeric gust column. *)
Definition wind_groups (gusts : list float) : list text :=
  (λ x, Some (wind_group_of x)) <$> gusts.

Definition wind_summary_row (delays : list float) (g : string * list nat)
    : WindSummaryRow :=
  {| ws_wind_group := g.1;
     ws_mean := mean (select delays g.2);
     ws_count := count (select delays g.2) |}.

Lemma wind_summary_of_Ok (df : DataFrame) (summary : list WindSummaryRow) :
  wind_summary_of df = Ok summary →
  ∃ groups delays,
    df !! "wind_group" = Some (ObjCol groups) ∧
    df !! "dep_delay" = Some (FloatCol delays) ∧
    summary = wind_summary_row delays <$> group_indices String.ltb groups.
Proof. unfold wind_summary_of. intros H. invert_Ok. eauto 10. Qed.

Lemma wind_summary_row_keys (delays : list float) (gs : list (string * list nat)) :
  ws_wind_group <$> (wind_summary_row delays <$> gs) = gs.*1.
Proof. rewrite <-list_fmap_compose. by apply list_fmap_ext. Qed.

Lemma count_present (xs : list float) : count xs = Z.of_nat (length (present xs)).
Proof.
  unfold count.
  assert (∀ n, foldl (λ n x, if isna x then n else (n + 1)%Z) n xs
               = (n + Z.of_nat (length (present xs)))%Z) as Hgen.
  { induction xs as [|[v|] xs IH]; intros n; simpl.
    - lia.
    - rewrite IH. unfold present; simpl. lia.
    - by rewrite IH. }
  rewrite Hgen. lia.
Qed.

Lemma mean_None_iff_count (xs : list float) : mean xs = None ↔ count xs = 0%Z.
Proof.
  rewrite mean_arithmetic, count_present.
  destruct (present xs); simpl; split; first [done | lia].
Qed.

Lemma Z_sum_count_concat (delays : list float) (ls : list (list nat)) :
  Z_sum ((λ idx, count (select delays idx)) <$> ls) = count (select delays (concat ls)).
Proof.
  induction ls as [|l ls IH]; csimpl; [done|].
  rewrite IH, !count_present. unfold select, present.
  rewrite !omap_app, length_app. lia.
Qed.

Lemma filter_all {A} (P : A → Prop) `{!∀ x, Decision (P x)} (l : list A) :
  Forall P l → filter P l = l.
Proof.
  induction 1 as [|x l Hx _ IH]; [done|].
  by rewrite filter_cons_True, IH.
Qed.

Lemma rows_with_a_key_all {K} (keys : list (option K)) :
  Forall is_Some keys → rows_with_a_key keys = seq 0 (length keys).
Proof.
  intros Hall. apply filter_all, list.Forall_forall. intros i Hi%elem_of_seq.
  destruct (lookup_lt_is_Some_2 keys i) as [k Hk]; [lia|].
  rewrite Hk. simpl. eapply list.Forall_forall in Hall; [exact Hall|].
  by eapply list_elem_of_lookup_2.
Qed.

Lemma count_select_perm (delays : list float) (idx : list nat) :
  idx ≡ₚ seq 0 (length delays) → count (select delays idx) = count delays.
Proof.
  intros Hperm. rewrite !count_present. unfold present.
  by rewrite (select_perm delays idx Hperm).
Qed.

(** The labels of a column that holds only the two wind labels, without
    repetition and in ascending order. *)
Lemma two_labels_sublist (ks : list string) :
  NoDup ks → StronglySorted str_lt ks →
  (∀ k, k ∈ ks → k = "< 10mph" ∨ k = ">= 10mph") →
  ks `sublist_of` ["< 10mph"; ">= 10mph"].
Proof.
  intros _ Hs Hin.
  assert (¬ str_lt ">= 10mph" "< 10mph") as Hhl by (by compute).
  destruct ks as [|a [|b ks]].
  - apply sublist_nil_l.
  - destruct (Hin a) as [-> | ->]; [apply elem_of_cons; auto|..].
    + by apply sublist_skip, sublist_nil_l.
    + by apply sublist_cons, sublist_skip, sublist_nil_l.
  - apply StronglySorted_inv in Hs as [Hs Ha].
    assert (str_lt a b) as Hab.
    { eapply list.Forall_forall in Ha; [exact Ha|]. apply elem_of_cons; auto. }
    destruct (Hin a) as [-> | ->]; [apply elem_of_cons; auto|..];
      (destruct (Hin b) as [-> | ->];
        [apply elem_of_cons; right; apply elem_of_cons; auto|..]);
      try (by apply str_lt_irrefl in Hab); try done.
    destruct ks as [|c ks]; [done|].
    apply StronglySorted_inv in Hs as [_ Hb].
    assert (str_lt ">= 10mph" c) as Hbc.
    { eapply list.Forall_forall in Hb; [exact Hb|]. apply elem_of_cons; auto. }
    destruct (Hin c) as [-> | ->]; [do 2 (apply elem_of_cons; right); apply elem_of_cons; auto|..].
    + done.
    + by apply str_lt_irrefl in Hbc.
Qed.

Lemma wind_groups_present (gusts : list float) : Forall is_Some (wind_groups gusts).
Proof. apply Forall_fmap, list.Forall_forall. intros x _. simpl. eauto. Qed.

Lemma wind_groups_elem (gusts : list float) (g : string) :
  Some g ∈ wind_groups gusts ↔ g ∈ wind_group_of <$> gusts.
Proof.
  unfold wind_groups. rewrite !list_elem_of_fmap. split.
  - intros (x & [= ->] & Hx). eauto.
  - intros (x & -> & Hx). eauto.
Qed.

(** The summary of a table whose wind column was assigned by the
    classifier. *)
Lemma wind_summary_of_classified (df : DataFrame) (gusts : list float)
    (summary : list WindSummaryRow) :
  wind_summary_of (<["wind_group" := ObjCol (wind_groups gusts)]> df) = Ok summary →
  ∃ delays,
    df !! "dep_delay" = Some (FloatCol delays) ∧
    summary = wind_summary_row delays <$> group_indices String.ltb (wind_groups gusts).
Proof.
  intros (groups & delays & Hg & Hd & ->)%wind_summary_of_Ok.
  rewrite lookup_insert_eq in Hg. rewrite lookup_insert_ne in Hd by done.
  exists delays. split; [done|]. congruence.
Qed.

Lemma wind_summary_has_group (gusts delays : list float) (g : string) :
  has_group g (wind_summary_row delays <$> group_indices String.ltb (wind_groups gusts))
  ↔ g ∈ wind_group_of <$> gusts.
Proof.
  unfold has_group. rewrite wind_summary_row_keys, <-wind_groups_elem. split.
  - apply group_indices_sound.
  - apply group_indices_complete.
Qed.

Lemma wind_summary_row_counts (delays : list float) (gs : list (string * list nat)) :
  ws_count <$> (wind_summary_row delays <$> gs)
    = (λ idx, count (select delays idx)) <$> gs.*2.
Proof. rewrite <-!list_fmap_compose. by apply list_fmap_ext. Qed.

Section wind_more.
Context `{!Repr (list WindSummaryRow), !Repr (list WindDetailRow)}.

(** X10.  When the wind aggregator returns on a table with numeric gust and
    delay columns of one length, its summary lists the labels that occur in
    the table, each once, ["< 10mph"] before [">= 10mph"], and no other row;
    the counts of its rows add up to the number of rows of the table whose
    [dep_delay] is present; and a row's mean is NaN exactly when its count
    is 0. *)
Theorem wind_summary_covers_rows (w w' : World) (flights_weather_df : loc)
    (gusts delays : list float)
    (r : list WindDetailRow * list WindSummaryRow) :
  heap w flights_weather_df !! "wind_gust" = Some (FloatCol gusts) →
  heap w flights_weather_df !! "dep_delay" = Some (FloatCol delays) →
  length delays = length gusts →
  analyze_wind_impact flights_weather_df w = (Ok r, w') →
  (ws_wind_group <$> r.2) `sublist_of` ["< 10mph"; ">= 10mph"] ∧
  (∀ g, has_group g r.2 ↔ g ∈ wind_group_of <$> gusts) ∧
  Z_sum (ws_count <$> r.2) = count delays ∧
  (∀ row, row ∈ r.2 → ws_mean row = None ↔ ws_count row = 0%Z).
Proof.
  intros Hgust Hdelay Hlen. rewrite analyze_wind_impact_run. cbv zeta.
  unfold getitem at 1. rewrite Hgust. cbn [apply_wind_group].
  fold (wind_groups gusts).
  destruct (wind_detail _) as [detail|]; [|done].
  destruct (wind_summary_of _) as [summary|] eqn:Hsum; [|done].
  intros [= <- _]. cbn [snd].
  apply wind_summary_of_classified in Hsum as (delays' & Hdelay' & ->).
  assert (delays' = delays) as -> by congruence.
  split_and!.
  - rewrite wind_summary_row_keys. apply two_labels_sublist.
    + apply groupby_NoDup.
    + apply Sorted_str_ltb, groupby_sorted, str_ltb_connex.
    + intros k Hk%group_indices_sound%wind_groups_elem.
      apply list_elem_of_fmap in Hk as (x & -> & _).
      unfold wind_group_of. destruct (ge10 x); auto.
  - apply wind_summary_has_group.
  - rewrite wind_summary_row_counts, Z_sum_count_concat. apply count_select_perm.
    rewrite group_indices_concat, rows_with_a_key_all by apply wind_groups_present.
    unfold wind_groups. by rewrite length_fmap, Hlen.
  - intros row (g & -> & _)%list_elem_of_fmap. apply mean_None_iff_count.
Qed.

(** X11.  Without a [wind_gust] column the wind aggregator raises
    [KeyError] for [wind_gust] and leaves everything as it was.  With a
    numeric gust column but no [origin] column it raises [KeyError] for
    [origin]; with a text [origin] column but no [dep_delay] column it
    raises the [KeyError] of the aggregation.  In both cases the
    [wind_group] column has by then been assigned to the caller's table,
    whose other columns are unchanged, and nothing has been printed. *)
Theorem analyze_wind_impact_missing_column (w : World) (flights_weather_df : loc) :
  (heap w flights_weather_df !! "wind_gust" = None →
   analyze_wind_impact flights_weather_df w = (Raise (KeyError "wind_gust"), w)) ∧
  (∀ gusts,
     heap w flights_weather_df !! "wind_gust" = Some (FloatCol gusts) →
     heap w flights_weather_df !! "origin" = None ∨
     ((∃ origins, heap w flights_weather_df !! "origin" = Some (ObjCol origins)) ∧
      heap w flights_weather_df !! "dep_delay" = None) →
     ∃ k w',
       analyze_wind_impact flights_weather_df w = (Raise (KeyError k), w') ∧
       (heap w flights_weather_df !! "origin" = None → k = "origin") ∧
       heap w' flights_weather_df !! "wind_group" = Some (ObjCol (wind_groups gusts)) ∧
       (∀ c, c ≠ "wind_group" →
          heap w' flights_weather_df !! c = heap w flights_weather_df !! c) ∧
       stdout w' = stdout w).
Proof.
  split.
  - intros Hgust. rewrite analyze_wind_impact_run. unfold getitem. by rewrite Hgust.
  - intros gusts Hgust Hmissing. rewrite analyze_wind_impact_run. cbv zeta.
    unfold getitem at 1. rewrite Hgust. cbn [apply_wind_group].
    fold (wind_groups gusts).
    assert (∃ k, (heap w flights_weather_df !! "origin" = None → k = "origin") ∧
              wind_detail (<["wind_group" := ObjCol (wind_groups gusts)]>
                             (heap w flights_weather_df)) = Raise (KeyError k))
      as (k & Hk & ->).
    { unfold wind_detail, getitem. rewrite lookup_insert_eq. cbn [rbind as_text].
      rewrite lookup_insert_ne by done.
      destruct Hmissing as [->|[[origins ->] Hd]]; [by eauto|].
      cbn [rbind as_text].
      destruct (agg_columns_missing
                  (<["wind_group" := ObjCol (wind_groups gusts)]>
                     (heap w flights_weather_df)) ["dep_delay"] "dep_delay")
        as [k ->].
      - repeat constructor.
      - by rewrite lookup_insert_ne.
      - by exists k. }
    eexists k, _. split; [done|]. split; [done|].
    rewrite heap_set_heap, fn_lookup_insert.
    split_and!; [apply lookup_insert_eq| |done].
    intros c Hc. by rewrite lookup_insert_ne.
Qed.
End wind_more.

(** ** The run as a whole *)

(** With the three first rows there, the report text fails only at one of
    the two wind lookups. *)
Lemma report_text_Raise_wind (routes_stats airlines_stats : Stats)
    (wind_summary : list WindSummaryRow) (e : exn) :
  top1_rows_exist routes_stats airlines_stats →
  report_text routes_stats airlines_stats wind_summary = Raise e →
  (e = KeyError ">= 10mph" ∧ ¬ has_group ">= 10mph" wind_summary) ∨
  (e = KeyError "< 10mph" ∧ ¬ has_group "< 10mph" wind_summary).
Proof.
  intros (H1 & H2 & H3). unfold report_text.
  destruct (iloc0_nonempty _ H1) as [r1 ->].
  destruct (iloc0_nonempty _ H2) as [r2 ->].
  destruct (iloc0_nonempty _ H3) as [r3 ->]. cbn [rbind].
  destruct (decide (has_group ">= 10mph" wind_summary)) as [Hhi|Hhi].
  - destruct (loc_mean_has_group _ _ Hhi) as [hi ->]. cbn [rbind].
    destruct (decide (has_group "< 10mph" wind_summary)) as [Hlo|Hlo].
    + by destruct (loc_mean_has_group _ _ Hlo) as [lo ->].
    + rewrite (loc_mean_lacks_group _ _ Hlo). cbn [rbind]. intros [= <-]. auto.
  - rewrite (loc_mean_lacks_group _ _ Hhi). cbn [rbind]. intros [= <-]. auto.
Qed.

Lemma report_text_Ok_groups (routes_stats airlines_stats : Stats)
    (wind_summary : list WindSummaryRow) (text : string) :
  report_text routes_stats airlines_stats wind_summary = Ok text →
  has_group ">= 10mph" wind_summary ∧ has_group "< 10mph" wind_summary.
Proof.
  intros Htext.
  destruct (decide (has_group ">= 10mph" wind_summary)) as [Hhi|Hhi];
    [destruct (decide (has_group "< 10mph" wind_summary)) as [Hlo|Hlo]|]; [done|..].
  - destruct (report_text_lacks routes_stats airlines_stats wind_summary) as [e He].
    { by right. }
    congruence.
  - destruct (report_text_lacks routes_stats airlines_stats wind_summary) as [e He].
    { by left. }
    congruence.
Qed.

Section main_more.
Context `{!ArgSort delay_desc, !ArgSort cancel_desc}.
Context `{!Repr (list WindSummaryRow), !Repr (list WindDetailRow)}.

(** What a successful run of the pipeline function has computed. *)
Lemma pipeline_Ok (flights2022 flights_weather2022 : option DataFrame)
    (out : Outputs) (em : Emitted) :
  pipeline flights2022 flights_weather2022 = (Ok out, em) →
  ∃ flights weather route gust wind_group text,
    flights2022 = Some flights ∧ flights_weather2022 = Some weather ∧
    route_column flights = Ok route ∧
    analyze_routes (<["route" := route]> flights) = Ok out.1.1 ∧
    analyze_airlines (<["route" := route]> flights) = Ok out.1.2 ∧
    getitem weather "wind_gust" = Ok gust ∧
    apply_wind_group gust = Ok wind_group ∧
    wind_detail (<["wind_group" := wind_group]> weather) = Ok out.2.1 ∧
    wind_summary_of (<["wind_group" := wind_group]> weather) = Ok out.2.2 ∧
    report_text out.1.1 out.1.2 out.2.2 = Ok text ∧
    em = {| printed := wind_banner out.2.1 out.2.2 ++ [(NL +:+ text) +:+ NL];
            written := {[ report_path := text ]};
            charts := saved_charts out.1.1 out.1.2 out.2.2 |}.
Proof.
  unfold pipeline.
  destruct flights2022 as [flights|]; [|done].
  destruct flights_weather2022 as [weather|]; [|done].
  destruct (route_column flights) as [route|] eqn:Hroute; [|done].
  destruct (analyze_routes _) as [routes_stats|] eqn:Hr; [|done].
  destruct (analyze_airlines _) as [airlines_stats|] eqn:Ha; [|done].
  destruct (getitem weather "wind_gust") as [gust|] eqn:Hgust; [|done].
  destruct (apply_wind_group gust) as [wind_group|] eqn:Hgroup; [|done].
  destruct (wind_detail _) as [wind_grouped_data|] eqn:Hdetail; [|done].
  destruct (wind_summary_of _) as [wind_summary|] eqn:Hsummary; [|done].
  destruct (report_text _ _ _) as [text|] eqn:Htext; [|done].
  intros [= <- <-]. by exists flights, weather, route, gust, wind_group, text.
Qed.

(** A failed run of the pipeline function has emitted nothing, or it failed
    at a wind lookup of the report, after the wind tables were printed and
    the three charts saved. *)
Lemma pipeline_Raise (flights2022 flights_weather2022 : option DataFrame)
    (e : exn) (em : Emitted) :
  pipeline flights2022 flights_weather2022 = (Raise e, em) →
  em = nothing ∨
  ∃ routes_stats airlines_stats wind_grouped_data wind_summary,
    ((e = KeyError ">= 10mph" ∧ ¬ has_group ">= 10mph" wind_summary) ∨
     (e = KeyError "< 10mph" ∧ ¬ has_group "< 10mph" wind_summary)) ∧
    em = {| printed := wind_banner wind_grouped_data wind_summary;
            written := ∅;
            charts := saved_charts routes_stats airlines_stats wind_summary |}.
Proof.
  unfold pipeline.
  destruct flights2022 as [flights|]; [|intros [= _ <-]; by left].
  destruct flights_weather2022 as [weather|]; [|intros [= _ <-]; by left].
  destruct (route_column flights) as [route|]; [|intros [= _ <-]; by left].
  destruct (analyze_routes _) as [routes_stats|] eqn:Hr; [|intros [= _ <-]; by left].
  destruct (analyze_airlines _) as [airlines_stats|] eqn:Ha; [|intros [= _ <-]; by left].
  destruct (getitem weather "wind_gust") as [gust|]; [|intros [= _ <-]; by left].
  destruct (apply_wind_group gust) as [wind_group|]; [|intros [= _ <-]; by left].
  destruct (wind_detail _) as [wind_grouped_data|]; [|intros [= _ <-]; by left].
  destruct (wind_summary_of _) as [wind_summary|]; [|intros [= _ <-]; by left].
  destruct (report_text _ _ _) as [text|] eqn:Htext; [done|].
  intros [= <- <-]. right.
  exists routes_stats, airlines_stats, wind_grouped_data, wind_summary.
  split; [|done].
  eapply report_text_Raise_wind; [|exact Htext].
  by eapply (aggregator_outputs_have_top1 (<["route" := route]> flights)).
Qed.
End main_more.

Lemma wind_group_of_ge10 (x : float) (b : bool) :
  wind_group_of x = (if b then ">= 10mph" else "< 10mph") ↔ ge10 x = b.
Proof. unfold wind_group_of. by destruct (ge10 x), b. Qed.

Section main_runs.
Context `{!ArgSort delay_desc, !ArgSort cancel_desc}.
Context `{!Repr (list WindSummaryRow), !Repr (list WindDetailRow)}.

Lemma main_pipeline (w w' : World) (r : result Outputs) :
  main w = (r, w') →
  ∃ em,
    pipeline (csv_files w !! "flights2022.csv")
             (csv_files w !! "flights_weather2022.csv") = (r, em) ∧
    emits w w' em.
Proof.
  intros Hmain. pose proof (main_run w) as Hrun. rewrite Hmain in Hrun.
  destruct (pipeline _ _) as [r' em]. destruct Hrun as [-> Hem]. by exists em.
Qed.

Lemma saved_charts_union (routes_stats airlines_stats : Stats)
    (wind_summary : list WindSummaryRow) (plots : gmap string Figure) :
  saved_charts routes_stats airlines_stats wind_summary ∪ plots =
    <[PLOT_DIR +:+ "/wind_impact.png" := wind_impact_figure wind_summary]>
    (<[PLOT_DIR +:+ "/airline_delays.png" := airline_delays_figure airlines_stats.1.2]>
    (<[PLOT_DIR +:+ "/route_cancellations.png" :=
         route_cancellations_figure routes_stats.2]> plots)).
Proof. unfold saved_charts. by rewrite <-!insert_union_l, (left_id_L ∅ (∪)). Qed.

(** X12.  When a run succeeds, both data files were there; the route
    aggregator and the airline aggregator both ran on the flight table of
    the first file with the [route] column assigned; the wind summary has
    both groups; the report file holds the report text for the aggregates
    of this run, whatever it held before; the three charts are at their
    three paths, drawn from the cancellation ranking of the routes, the
    delay ranking of the airlines and the wind summary; and standard output
    has received the wind tables and then the report. *)
Theorem main_success_consistent (w w' : World) (out : Outputs) :
  main w = (Ok out, w') →
  ∃ flights weather route text,
    csv_files w !! "flights2022.csv" = Some flights ∧
    csv_files w !! "flights_weather2022.csv" = Some weather ∧
    route_column flights = Ok route ∧
    analyze_routes (<["route" := route]> flights) = Ok out.1.1 ∧
    analyze_airlines (<["route" := route]> flights) = Ok out.1.2 ∧
    has_group ">= 10mph" out.2.2 ∧ has_group "< 10mph" out.2.2 ∧
    report_text out.1.1 out.1.2 out.2.2 = Ok text ∧
    text_files w' = <[report_path := text]> (text_files w) ∧
    plot_files w' =
      <[PLOT_DIR +:+ "/wind_impact.png" := wind_impact_figure out.2.2]>
      (<[PLOT_DIR +:+ "/airline_delays.png" := airline_delays_figure out.1.2.1.2]>
      (<[PLOT_DIR +:+ "/route_cancellations.png" :=
           route_cancellations_figure out.1.1.2]> (plot_files w))) ∧
    stdout w' = stdout w ++ wind_banner out.2.1 out.2.2 ++ [(NL +:+ text) +:+ NL].
Proof.
  intros (em & Hp & Hout & Htext & Hplot & _)%main_pipeline.
  apply pipeline_Ok in Hp
    as (flights & weather & route & gust & wind_group & text & Hf & Hw & Hroute
        & Hr & Ha & _ & _ & _ & _ & Hreport & ->).
  cbn [printed written charts] in *.
  exists flights, weather, route, text.
  destruct (report_text_Ok_groups _ _ _ _ Hreport) as [Hhi Hlo].
  split_and!; try done.
  - by rewrite insert_union_singleton_l.
  - by rewrite <-saved_charts_union.
Qed.

(** X13.  A run that fails leaves the report file and every other text
    file as they were.  Either it has printed nothing and saved no chart,
    or it failed in the report generator with [KeyError] for the wind group
    that the wind summary lacks, after the wind tables were printed and the
    three charts were saved. *)
Theorem main_failure_writes_no_report (w w' : World) (e : exn) :
  main w = (Raise e, w') →
  text_files w' = text_files w ∧
  csv_files w' = csv_files w ∧
  ((stdout w' = stdout w ∧ plot_files w' = plot_files w) ∨
   ∃ (routes_stats airlines_stats : Stats) wind_grouped_data wind_summary,
     ((e = KeyError ">= 10mph" ∧ ¬ has_group ">= 10mph" wind_summary) ∨
      (e = KeyError "< 10mph" ∧ ¬ has_group "< 10mph" wind_summary)) ∧
     stdout w' = stdout w ++ wind_banner wind_grouped_data wind_summary ∧
     plot_files w' =
       <[PLOT_DIR +:+ "/wind_impact.png" := wind_impact_figure wind_summary]>
       (<[PLOT_DIR +:+ "/airline_delays.png" := airline_delays_figure airlines_stats.1.2]>
       (<[PLOT_DIR +:+ "/route_cancellations.png" :=
            route_cancellations_figure routes_stats.2]> (plot_files w)))).
Proof.
  intros (em & Hp & Hout & Htext & Hplot & Hcsv)%main_pipeline.
  apply pipeline_Raise in Hp as [->|(rs & as' & wd & ws & He & ->)];
    cbn [printed written charts nothing] in *;
    rewrite (left_id_L ∅ (∪)) in Htext.
  - rewrite app_nil_r in Hout. rewrite (left_id_L ∅ (∪)) in Hplot. auto.
  - split_and!; [done..|]. right. exists rs, as', wd, ws.
    split_and!; [done..|]. by rewrite <-saved_charts_union.
Qed.

(** X14.  A run fails, and writes no report, whenever the gusts of the
    weather file all fall on one side of 10 mph, an absent gust counting as
    low: the wind summary then has at most one group and the report needs
    both.  This includes a weather file without rows. *)
Theorem main_needs_both_wind_groups (w : World) (weather : DataFrame)
    (gusts : list float) (calm : bool) :
  csv_files w !! "flights_weather2022.csv" = Some weather →
  weather !! "wind_gust" = Some (FloatCol gusts) →
  Forall (λ x, ge10 x = calm) gusts →
  ∃ e w', main w = (Raise e, w') ∧ text_files w' = text_files w.
Proof.
  intros Hweather Hgust Hside.
  destruct (main w) as [[out|e] w'] eqn:Hmain.
  - exfalso.
    apply main_pipeline in Hmain as (em & Hp & _).
    apply pipeline_Ok in Hp
      as (flights & weather' & route & gust & wind_group & text & _ & Hw & _
          & _ & _ & Hg & Hgroup & _ & Hsummary & Hreport & _).
    assert (weather' = weather) as -> by congruence.
    apply getitem_Ok in Hg. assert (gust = FloatCol gusts) as -> by congruence.
    cbn [apply_wind_group] in Hgroup. injection Hgroup as <-.
    fold (wind_groups gusts) in Hsummary.
    apply wind_summary_of_classified in Hsummary as (delays & _ & Hsum).
    apply report_text_Ok_groups in Hreport as [Hhi Hlo]. rewrite Hsum in Hhi, Hlo.
    apply wind_summary_has_group, list_elem_of_fmap in Hhi as (x & Hx & Hxin).
    apply wind_summary_has_group, list_elem_of_fmap in Hlo as (y & Hy & Hyin).
    symmetry in Hx, Hy.
    apply (wind_group_of_ge10 x true) in Hx. apply (wind_group_of_ge10 y false) in Hy.
    rewrite list.Forall_forall in Hside.
    rewrite (Hside x Hxin) in Hx. rewrite (Hside y Hyin) in Hy. congruence.
  - exists e, w'. split; [done|].
    apply main_pipeline in Hmain as (em & Hp & _ & Htext & _).
    apply pipeline_Raise in Hp as [->|(rs & as' & wd & ws & _ & ->)];
      cbn [written nothing] in Htext; by rewrite (left_id_L ∅ (∪)) in Htext.
Qed.
End main_runs.

(** ** The further properties on sample tables *)

(** Wind rows in which the second row has neither a gust nor a delay. *)
Definition gappy_weather : DataFrame :=
  <["wind_gust" := FloatCol [num 9; None; num 20] ]>
  (<["dep_delay" := FloatCol [num 5; None; num 25] ]> sample_weather).

Example wind_summary_gappy :
  (@analyze_wind_impact plain_summary_repr plain_detail_repr
     0 (world_holding gappy_weather)).1
  = Ok ([ {| wd_wind_group := "< 10mph"; wd_origin := "JFK"; wd_mean_dep_delay := num 5 |};
          {| wd_wind_group := ">= 10mph"; wd_origin := "LGA"; wd_mean_dep_delay := num 25 |} ],
        [ {| ws_wind_group := "< 10mph"; ws_mean := num 5; ws_count := 1 |};
          {| ws_wind_group := ">= 10mph"; ws_mean := num 25; ws_count := 1 |} ]).
Proof. compute_done. Qed.

Lemma wind_summary_covers_rows_witness :
  Z_sum (ws_count <$>
           [ {| ws_wind_group := "< 10mph"; ws_mean := num 5; ws_count := 1 |};
             {| ws_wind_group := ">= 10mph"; ws_mean := num 25; ws_count := 1 |} ])
    = count [num 5; None; num 25].
Proof.
  refine (proj1 (proj2 (proj2
    (@wind_summary_covers_rows plain_summary_repr plain_detail_repr
       (world_holding gappy_weather)
       (@analyze_wind_impact plain_summary_repr plain_detail_repr
          0 (world_holding gappy_weather)).2
       0 [num 9; None; num 20] [num 5; None; num 25] (_, _) _ _ _ _)))).
  - vm_compute; reflexivity.
  - vm_compute; reflexivity.
  - reflexivity.
  - etransitivity; [apply surjective_pairing|].
    f_equal. apply wind_summary_gappy.
Defined.

(** Wind rows without a gust column, without an origin column and without
    a delay column. *)
Definition weather_without_gust : DataFrame := delete "wind_gust" sample_weather.
Definition weather_without_origin : DataFrame := delete "origin" sample_weather.
Definition weather_without_delay : DataFrame := delete "dep_delay" sample_weather.

Lemma analyze_wind_impact_missing_column_witness :
  @analyze_wind_impact plain_summary_repr plain_detail_repr
     0 (world_holding weather_without_gust)
    = (Raise (KeyError "wind_gust"), world_holding weather_without_gust) ∧
  (∃ w',
     @analyze_wind_impact plain_summary_repr plain_detail_repr
        0 (world_holding weather_without_origin) = (Raise (KeyError "origin"), w') ∧
     heap w' 0 !! "wind_group"
       = Some (ObjCol [Some "< 10mph"; Some ">= 10mph"; Some ">= 10mph"])) ∧
  (∃ k w',
     @analyze_wind_impact plain_summary_repr plain_detail_repr
        0 (world_holding weather_without_delay) = (Raise (KeyError k), w') ∧
     heap w' 0 !! "wind_group"
       = Some (ObjCol [Some "< 10mph"; Some ">= 10mph"; Some ">= 10mph"])).
Proof.
  split_and!.
  - apply (proj1 (@analyze_wind_impact_missing_column plain_summary_repr
                    plain_detail_repr (world_holding weather_without_gust) 0)).
    vm_compute; reflexivity.
  - destruct (proj2 (@analyze_wind_impact_missing_column plain_summary_repr
                       plain_detail_repr (world_holding weather_without_origin) 0)
                [num 9; num 10; num 20])
      as (k & w' & Hrun & Hk & Hgroup & _).
    + vm_compute; reflexivity.
    + left. vm_compute; reflexivity.
    + exists w'. rewrite Hk in Hrun by (vm_compute; reflexivity).
      split; [exact Hrun|]. rewrite Hgroup. compute_done.
  - destruct (proj2 (@analyze_wind_impact_missing_column plain_summary_repr
                       plain_detail_repr (world_holding weather_without_delay) 0)
                [num 9; num 10; num 20])
      as (k & w' & Hrun & _ & Hgroup & _).
    + vm_compute; reflexivity.
    + right. split; [eexists|]; vm_compute; reflexivity.
    + exists k, w'. split; [exact Hrun|]. rewrite Hgroup. compute_done.
Defined.

(** The sample world with a weather file in which no gust reaches 10 mph. *)
Definition calm_weather : DataFrame :=
  <["wind_gust" := FloatCol [num 9; None; num 3] ]> sample_weather.

Definition calm_world : World :=
  {| csv_files := <["flights2022.csv" := sample_flights]>
                  (<["flights_weather2022.csv" := calm_weather]> ∅);
     heap := λ _, ∅; next_loc := 0;
     stdout := []; text_files := {[ report_path := "an older report" ]};
     plot_files := ∅ |}.

Example main_calm : (sample_main calm_world).1 = Raise (KeyError ">= 10mph").
Proof. compute_done. Qed.

Lemma main_success_consistent_witness :
  ∃ text,
    report_text sample_route_stats sample_airline_stats sample_wind_summary = Ok text ∧
    text_files (sample_main sample_world).2
      = <[report_path := text]> (text_files sample_world).
Proof.
  destruct (@main_success_consistent (merge_ArgSort delay_desc)
              (merge_ArgSort cancel_desc) plain_summary_repr plain_detail_repr
              sample_world (sample_main sample_world).2
              (sample_route_stats, sample_airline_stats,
               (sample_wind_detail, sample_wind_summary)))
    as (_ & _ & _ & text & _ & _ & _ & _ & _ & _ & _ & Hreport & Htext & _).
  - etransitivity; [apply surjective_pairing|].
    f_equal. apply main_sample_outputs.
  - by exists text.
Defined.

Lemma main_failure_writes_no_report_witness :
  text_files (sample_main calm_world).2 = text_files calm_world ∧
  csv_files (sample_main calm_world).2 = csv_files calm_world.
Proof.
  destruct (@main_failure_writes_no_report (merge_ArgSort delay_desc)
              (merge_ArgSort cancel_desc) plain_summary_repr plain_detail_repr
              calm_world (sample_main calm_world).2 (KeyError ">= 10mph"))
    as (Htext & Hcsv & _).
  - etransitivity; [apply surjective_pairing|].
    f_equal; apply main_calm.
  - by split.
Defined.

Lemma main_needs_both_wind_groups_witness :
  ∃ e w', sample_main calm_world = (Raise e, w') ∧
          text_files w' = text_files calm_world.
Proof.
  apply (@main_needs_both_wind_groups (merge_ArgSort delay_desc)
           (merge_ArgSort cancel_desc) plain_summary_repr plain_detail_repr
           calm_world calm_weather [num 9; None; num 3] false).
  - vm_compute; reflexivity.
  - vm_compute; reflexivity.
  - repeat constructor.
Defined.

(** ** The wind table by group and origin *)

(** The keys of the grouping by [wind_group] and [origin]: a row whose
    origin is absent has no key. *)
Definition wind_origin_keys (gusts : list float) (origins : list text)
    : list (option (string * string)) :=
  zip_with pair_key (wind_groups gusts) origins.

Definition wind_detail_row (delays : list float) (g : string * string * list nat)
    : WindDetailRow :=
  {| wd_wind_group := g.1.1; wd_origin := g.1.2;
     wd_mean_dep_delay := mean (select delays g.2) |}.

Definition wd_key (row : WindDetailRow) : string * string :=
  (wd_wind_group row, wd_origin row).

Lemma wind_detail_Ok (df : DataFrame) (detail : list WindDetailRow) :
  wind_detail df = Ok detail →
  ∃ groups origins delays,
    df !! "wind_group" = Some (ObjCol groups) ∧
    df !! "origin" = Some (ObjCol origins) ∧
    df !! "dep_delay" = Some (FloatCol delays) ∧
    detail = wind_detail_row delays
               <$> group_indices pair_ltb (zip_with pair_key groups origins).
Proof. unfold wind_detail. intros H. invert_Ok. eauto 10. Qed.

Lemma wind_detail_row_keys (delays : list float)
    (gs : list (string * string * list nat)) :
  wd_key <$> (wind_detail_row delays <$> gs) = gs.*1.
Proof.
  rewrite <-list_fmap_compose. apply list_fmap_ext. by intros i [[g o] idx] _.
Qed.

Lemma wind_origin_keys_lookup (gusts : list float) (origins : list text)
    (i : nat) (g o : string) :
  wind_origin_keys gusts origins !! i = Some (Some (g, o)) ↔
  ∃ x, gusts !! i = Some x ∧ wind_group_of x = g ∧ origins !! i = Some (Some o).
Proof.
  unfold wind_origin_keys, wind_groups.
  rewrite lookup_zip_with, list_lookup_fmap.
  destruct (gusts !! i) as [x|], (origins !! i) as [[o'|]|]; simpl; split;
    try (intros [= <- <-]; by eauto);
    try (intros (y & [= <-] & <- & [= <-]); done);
    try done; by intros (y & ? & _).
Qed.

Section wind_detail_more.
Context `{!Repr (list WindSummaryRow), !Repr (list WindDetailRow)}.

(** X15.  When the wind aggregator returns, its detailed table has one row
    for each pair of a wind label and an origin that occur together on a
    row of the table, and no other row; a table row whose origin is absent
    belongs to no row of it.  The mean of a row is the arithmetic mean of
    the present [dep_delay] values of the table rows with its label and
    its origin, and the label of every row has its row in the summary. *)
Theorem wind_detail_one_row_per_pair (w w' : World) (flights_weather_df : loc)
    (gusts : list float) (origins : list text) (delays : list float)
    (r : list WindDetailRow * list WindSummaryRow) :
  heap w flights_weather_df !! "wind_gust" = Some (FloatCol gusts) →
  heap w flights_weather_df !! "origin" = Some (ObjCol origins) →
  heap w flights_weather_df !! "dep_delay" = Some (FloatCol delays) →
  analyze_wind_impact flights_weather_df w = (Ok r, w') →
  NoDup (wd_key <$> r.1) ∧
  (∀ g o, (g, o) ∈ wd_key <$> r.1 ↔
     ∃ i x, gusts !! i = Some x ∧ wind_group_of x = g ∧
            origins !! i = Some (Some o)) ∧
  (∀ row, row ∈ r.1 →
     wd_mean_dep_delay row =
       arithmetic_mean (present (select delays
         (rows_of_group (wind_origin_keys gusts origins) (wd_key row)))) ∧
     has_group (wd_wind_group row) r.2).
Proof.
  intros Hgust Horigin Hdelay. rewrite analyze_wind_impact_run. cbv zeta.
  unfold getitem at 1. rewrite Hgust. cbn [apply_wind_group].
  fold (wind_groups gusts).
  destruct (wind_detail _) as [detail|] eqn:Hdetail; [|done].
  destruct (wind_summary_of _) as [summary|] eqn:Hsum; [|done].
  intros [= <- _]. cbn [fst snd].
  apply wind_summary_of_classified in Hsum as (delays' & _ & ->).
  apply wind_detail_Ok in Hdetail
    as (groups & origins' & delays'' & Hg & Ho & Hd & ->).
  rewrite lookup_insert_eq in Hg. rewrite lookup_insert_ne in Ho, Hd by done.
  assert (groups = wind_groups gusts) as -> by congruence.
  assert (origins' = origins) as -> by congruence.
  assert (delays'' = delays) as -> by congruence.
  fold (wind_origin_keys gusts origins).
  assert (∀ g o, (g, o) ∈ (group_indices pair_ltb (wind_origin_keys gusts origins)).*1 ↔
            ∃ i x, gusts !! i = Some x ∧ wind_group_of x = g ∧
                   origins !! i = Some (Some o)) as Hkeys.
  { intros g o. split.
    - intros [i Hi]%group_indices_sound%list_elem_of_lookup.
      apply wind_origin_keys_lookup in Hi as (x & ? & ? & ?). by exists i, x.
    - intros (i & x & Hx & Hgx & Hox). apply group_indices_complete.
      apply (list_elem_of_lookup_2 _ i), wind_origin_keys_lookup. by exists x. }
  rewrite wind_detail_row_keys. split_and!.
  - apply groupby_NoDup.
  - exact Hkeys.
  - intros row ([[g o] idx] & -> & Hin)%list_elem_of_fmap. split.
    + apply group_indices_rows in Hin as ->. cbn. apply mean_arithmetic.
    + cbn. apply wind_summary_has_group.
      assert ((g, o) ∈ (group_indices pair_ltb (wind_origin_keys gusts origins)).*1)
        as (i & x & Hx & <- & _)%Hkeys.
      { apply list_elem_of_fmap. by exists (g, o, idx). }
      apply list_elem_of_fmap. exists x. split; [done|].
      by eapply list_elem_of_lookup_2.
Qed.
End wind_detail_more.

(** Wind rows in which the second row has no origin. *)
Definition weather_missing_origin : DataFrame :=
  <["origin" := ObjCol [Some "JFK"; None; Some "LGA"] ]> sample_weather.

Example wind_detail_missing_origin :
  (@analyze_wind_impact plain_summary_repr plain_detail_repr
     0 (world_holding weather_missing_origin)).1
  = Ok ([ {| wd_wind_group := "< 10mph"; wd_origin := "JFK"; wd_mean_dep_delay := num 5 |};
          {| wd_wind_group := ">= 10mph"; wd_origin := "LGA"; wd_mean_dep_delay := num 25 |} ],
        sample_wind_summary).
Proof. compute_done. Qed.

Lemma wind_detail_one_row_per_pair_witness :
  NoDup [("< 10mph", "JFK"); (">= 10mph", "LGA")] ∧
  has_group ">= 10mph" sample_wind_summary.
Proof.
  destruct (@wind_detail_one_row_per_pair plain_summary_repr plain_detail_repr
              (world_holding weather_missing_origin)
              (@analyze_wind_impact plain_summary_repr plain_detail_repr
                 0 (world_holding weather_missing_origin)).2
              0 [num 9; num 10; num 20] [Some "JFK"; None; Some "LGA"]
              [num 5; num 15; num 25]
              ([ {| wd_wind_group := "< 10mph"; wd_origin := "JFK";
                    wd_mean_dep_delay := num 5 |};
                 {| wd_wind_group := ">= 10mph"; wd_origin := "LGA";
                    wd_mean_dep_delay := num 25 |} ],
               sample_wind_summary))
    as (Hnd & _ & Hrows).
  - vm_compute; reflexivity.
  - vm_compute; reflexivity.
  - vm_compute; reflexivity.
  - etransitivity; [apply surjective_pairing|].
    f_equal; apply wind_detail_missing_origin.
  - split; [exact Hnd|].
    apply (Hrows {| wd_wind_group := ">= 10mph"; wd_origin := "LGA";
                    wd_mean_dep_delay := num 25 |}).
    apply elem_of_cons; right. apply elem_of_cons; left. reflexivity.
Defined.

(** ** Loading *)

(** X16.  When both data files exist, the loader returns two different
    references to two new table objects, the first holding the table of
    [flights2022.csv] and the second the table of
    [flights_weather2022.csv], also when the two files hold equal tables;
    the table objects that existed before are unchanged, and no file or
    output is touched. *)
Theorem load_data_fresh_tables (w : World) (flights weather : DataFrame) :
  csv_files w !! "flights2022.csv" = Some flights →
  csv_files w !! "flights_weather2022.csv" = Some weather →
  ∃ flights2022 flights_weather2022 w',
    load_data w = (Ok (flights2022, flights_weather2022), w') ∧
    flights2022 ≠ flights_weather2022 ∧
    next_loc w ≤ flights2022 < next_loc w' ∧
    next_loc w ≤ flights_weather2022 < next_loc w' ∧
    heap w' flights2022 = flights ∧
    heap w' flights_weather2022 = weather ∧
    (∀ l, l < next_loc w → heap w' l = heap w l) ∧
    csv_files w' = csv_files w ∧ stdout w' = stdout w ∧
    text_files w' = text_files w ∧ plot_files w' = plot_files w.
Proof.
  intros Hf Hw. rewrite load_data_run, Hf, Hw.
  eexists _, _, _. split; [done|]. cbn [heap csv_files next_loc stdout text_files plot_files
    set_heap set_next_loc].
  split_and!; try done; try lia.
  - by rewrite fn_lookup_insert_ne, fn_lookup_insert by lia.
  - by rewrite fn_lookup_insert.
  - intros l Hl. by rewrite !fn_lookup_insert_ne by lia.
Qed.

(** X17.  The loader reads the flight file first.  Without it the loader
    raises [FileNotFoundError] for [flights2022.csv], whether or not the
    weather file exists, and nothing has changed.  With the flight file
    but without the weather file it raises [FileNotFoundError] for
    [flights_weather2022.csv]; no file or output is touched. *)
Theorem load_data_missing_file (w : World) :
  (csv_files w !! "flights2022.csv" = None →
   load_data w = (Raise (FileNotFoundError "flights2022.csv"), w)) ∧
  (∀ flights,
     csv_files w !! "flights2022.csv" = Some flights →
     csv_files w !! "flights_weather2022.csv" = None →
     ∃ w', load_data w = (Raise (FileNotFoundError "flights_weather2022.csv"), w') ∧
           csv_files w' = csv_files w ∧ stdout w' = stdout w ∧
           text_files w' = text_files w ∧ plot_files w' = plot_files w ∧
           ∀ l, l < next_loc w → heap w' l = heap w l).
Proof.
  split.
  - intros Hf. by rewrite load_data_run, Hf.
  - intros flights Hf Hw. rewrite load_data_run, Hf, Hw.
    eexists. split; [done|]. cbn [heap csv_files next_loc stdout text_files plot_files
    set_heap set_next_loc]. split_and!; try done.
    intros l Hl. by rewrite fn_lookup_insert_ne by lia.
Qed.

Lemma load_data_fresh_tables_witness :
  ∃ flights2022 flights_weather2022 w',
    load_data sample_world = (Ok (flights2022, flights_weather2022), w') ∧
    flights2022 ≠ flights_weather2022 ∧
    heap w' flights2022 = sample_flights ∧
    heap w' flights_weather2022 = sample_weather.
Proof.
  destruct (load_data_fresh_tables sample_world sample_flights sample_weather)
    as (l1 & l2 & w' & Hrun & Hne & _ & _ & H1 & H2 & _).
  - vm_compute; reflexivity.
  - vm_compute; reflexivity.
  - by exists l1, l2, w'.
Defined.

Lemma load_data_missing_file_witness :
  load_data (world_holding sample_flights)
    = (Raise (FileNotFoundError "flights2022.csv"), world_holding sample_flights).
Proof.
  apply (proj1 (load_data_missing_file (world_holding sample_flights))).
  vm_compute; reflexivity.
Defined.

(** ** Missing columns on the sample tables *)

(** The sample flights before preprocessing have no [route] column. *)
Lemma aggregator_missing_column_witness :
  @analyze (merge_ArgSort delay_desc) (merge_ArgSort cancel_desc)
    Routes sample_flights = Raise (KeyError "route").
Proof.
  apply (proj1 (@aggregator_missing_column (merge_ArgSort delay_desc)
                  (merge_ArgSort cancel_desc) Routes sample_flights)).
  vm_compute; reflexivity.
Defined.

(** The wind rows have an [origin] column and no [dest] column. *)
Lemma preprocess_data_missing_column_witness :
  preprocess_data 0 (world_holding sample_weather)
    = (Raise (KeyError "dest"), world_holding sample_weather).
Proof.
  apply (proj2 (preprocess_data_missing_column (world_holding sample_weather) 0)
               [Some "JFK"; Some "JFK"; Some "LGA"]);
    vm_compute; reflexivity.
Defined.
